(** * Claims front end: validation schemas, utilities and request retry

    A shallow embedding of the TypeScript sources of the claims management
    front end (types/index.ts, the Zod validation schemas, the utility
    functions and the API client's retry helper), together with the
    theorems that settle the properties stated about them.

    Conventions of the embedding.
    - A JavaScript string is a [string]: a sequence of code units, here
      restricted to the units below 256.
    - A JavaScript number is its exact value: an integer-valued number is a
      [Z], any other number a [Q].  Binary64 rounding, NaN and the
      infinities are outside the model.  An optional field that is absent
      (undefined) is [None].
    - Built-ins whose behaviour is implementation-defined (parsing a date
      string, the clock, the random source) are parameters. *)

From Stdlib Require Import ZArith QArith Qround Qabs Lqa Bool Btauto List String Ascii Lia.
Import ListNotations.

Local Open Scope string_scope.
Local Open Scope Z_scope.

(* ------------------------------------------------------------------ *)
(** ** JavaScript primitives used by the sources *)

Module Js.

(** Code-unit classes appearing in the regular expressions. *)
Definition in_range (lo hi : nat) (c : ascii) : bool :=
  let n := nat_of_ascii c in (lo <=? n)%nat && (n <=? hi)%nat.

Definition is_digit (c : ascii) : bool := in_range 48 57 c.
Definition is_upper (c : ascii) : bool := in_range 65 90 c.
Definition is_lower (c : ascii) : bool := in_range 97 122 c.

(** [\s] on the code units below 256: TAB, LF, VT, FF, CR, space and
    the no-break space. *)
Definition is_space (c : ascii) : bool :=
  let n := nat_of_ascii c in
  in_range 9 13 c || (n =? 32)%nat || (n =? 160)%nat.

Fixpoint all_chars (p : ascii -> bool) (s : string) : bool :=
  match s with
  | EmptyString => true
  | String c r => p c && all_chars p r
  end.

(** [s.slice(k)] for k >= 0 : drop the first k code units. *)
Fixpoint drop (k : nat) (s : string) : string :=
  match k, s with
  | O, _ => s
  | S _, EmptyString => EmptyString
  | S k', String _ r => drop k' r
  end.

(** [s.slice(0, k)] : keep the first k code units. *)
Fixpoint take (k : nat) (s : string) : string :=
  match k, s with
  | O, _ => EmptyString
  | S _, EmptyString => EmptyString
  | S k', String c r => String c (take k' r)
  end.

(** [s.slice(-k)] : the last k code units, the whole string when it is
    shorter. *)
Definition slice_last (k : nat) (s : string) : string :=
  drop (length s - k)%nat s.

(** [s.substr(start, len)]. *)
Definition substr (start len : nat) (s : string) : string :=
  take len (drop start s).

Definition upper_char (c : ascii) : ascii :=
  if is_lower c then ascii_of_nat (nat_of_ascii c - 32)%nat else c.

(** [s.toUpperCase()] (on the letters a-z; the sources apply it to
    radix-36 digits only). *)
Fixpoint toUpperCase (s : string) : string :=
  match s with
  | EmptyString => EmptyString
  | String c r => String (upper_char c) (toUpperCase r)
  end.

Definition digit_char (d : Z) : ascii := ascii_of_nat (48 + Z.to_nat d)%nat.

(** Decimal digits of a non-negative integer, most significant first,
    prepended to [acc]. *)
Fixpoint digits_to (fuel : nat) (n : Z) (acc : string) : string :=
  let acc' := String (digit_char (n mod 10)) acc in
  match fuel with
  | O => acc'
  | S f => if n <? 10 then acc' else digits_to f (n / 10) acc'
  end.

Definition nat_digits (n : Z) : string :=
  digits_to (Z.to_nat (Z.log2 n)) n EmptyString.

(** [Number.prototype.toString()] of an integer-valued number (below
    1e21 in magnitude, where no exponent is printed). *)
Definition toString (n : Z) : string :=
  if n <? 0 then String "-" (nat_digits (- n)) else nat_digits n.

(** One radix-36 digit as printed by [toString(36)]. *)
Definition digit36_char (d : nat) : ascii :=
  if (d <? 10)%nat then ascii_of_nat (48 + d)%nat else ascii_of_nat (87 + d)%nat.

Fixpoint digits36 (ds : list nat) : string :=
  match ds with
  | [] => EmptyString
  | d :: r => String (digit36_char d) (digits36 r)
  end.

(** [x.toString(36)] for a number 0 <= x < 1 given by the radix-36
    digits [ds] of its printed fraction: "0" when there are none, else
    "0." followed by the digits. *)
Definition fraction_toString36 (ds : list nat) : string :=
  match ds with
  | [] => "0"
  | _ => "0." ++ digits36 ds
  end.

(** The regular expression [/^CLM[A-Z0-9]{6,}$/], written in the
    schemas and in isValidClaimNumber. *)
Definition test_CLM (s : string) : bool :=
  match s with
  | String "C" (String "L" (String "M" rest)) =>
      (6 <=? length rest)%nat
      && all_chars (fun c => is_upper c || is_digit c) rest
  | _ => false
  end.

(** [Math.round]: the nearest integer, ties towards +infinity. *)
Definition Math_round (x : Q) : Z := Qfloor (x + (1 # 2))%Q.

Definition Qltb (x y : Q) : bool := negb (Qle_bool y x).

End Js.

(* ------------------------------------------------------------------ *)
(** ** types/index.ts *)

Module Types.

Inductive ClaimStatus :=
| RECEIVED | OCR_PROCESSING | PII_MASKED | DQ_VALIDATED | HUMAN_REVIEW
| CONSENT_VERIFIED | CLAIM_VALIDATED | PAYER_SUBMITTED | SETTLED | REJECTED.

Inductive ClaimType := MEDICAL | DENTAL | VISION | PHARMACY.

(** The string value of each enum member. *)
Definition ClaimStatus_value (s : ClaimStatus) : string :=
  match s with
  | RECEIVED => "RECEIVED"
  | OCR_PROCESSING => "OCR_PROCESSING"
  | PII_MASKED => "PII_MASKED"
  | DQ_VALIDATED => "DQ_VALIDATED"
  | HUMAN_REVIEW => "HUMAN_REVIEW"
  | CONSENT_VERIFIED => "CONSENT_VERIFIED"
  | CLAIM_VALIDATED => "CLAIM_VALIDATED"
  | PAYER_SUBMITTED => "PAYER_SUBMITTED"
  | SETTLED => "SETTLED"
  | REJECTED => "REJECTED"
  end.

Definition ClaimType_value (t : ClaimType) : string :=
  match t with
  | MEDICAL => "MEDICAL"
  | DENTAL => "DENTAL"
  | VISION => "VISION"
  | PHARMACY => "PHARMACY"
  end.

Definition all_ClaimStatus : list ClaimStatus :=
  [RECEIVED; OCR_PROCESSING; PII_MASKED; DQ_VALIDATED; HUMAN_REVIEW;
   CONSENT_VERIFIED; CLAIM_VALIDATED; PAYER_SUBMITTED; SETTLED; REJECTED].

Definition all_ClaimType : list ClaimType := [MEDICAL; DENTAL; VISION; PHARMACY].

(** A value as it reaches a schema before any type check. *)
Inductive raw :=
| RNull
| RBool (b : bool)
| RNum (x : Q)
| RStr (s : string).

(** interface Claim (the fields the front end reads back). *)
Record Claim := {
  id : string;
  claim_number : string;
  policy_number : string;
  patient_name : string;
  date_of_service : string;
  claim_amount : Q;
  claim_type : ClaimType;
  status : ClaimStatus;
  provider_name : option string;
  diagnosis_codes : option (list string);
  procedure_codes : option (list string);
  ocr_confidence_score : option Q;
  requires_human_review : option bool
}.

(** interface ClaimUpdate: the body of an update request. *)
Record ClaimUpdate := {
  cu_claim_number : option string;
  cu_policy_number : option string;
  cu_patient_name : option string;
  cu_date_of_service : option string;
  cu_claim_amount : option Q;
  cu_claim_type : option ClaimType;
  cu_status : option ClaimStatus;
  cu_provider_name : option string;
  cu_diagnosis_codes : option (list string);
  cu_procedure_codes : option (list string)
}.

End Types.

(* ------------------------------------------------------------------ *)
(** ** Form validation schemas (Zod) *)

Module Validation.
Import Js Types.

(** [.optional()]: an absent value passes, a present one is checked. *)
Definition optional {A} (check : A -> bool) (v : option A) : bool :=
  match v with
  | None => true
  | Some x => check x
  end.

Definition min_length (k : nat) (s : string) : bool := (k <=? length s)%nat.
Definition max_length (k : nat) (s : string) : bool := (length s <=? k)%nat.

(** [z.nativeEnum(ClaimType)]: the value is one of the enum's strings. *)
Definition nativeEnum_ClaimType (v : raw) : bool :=
  match v with
  | RStr s => existsb (fun t => String.eqb s (ClaimType_value t)) all_ClaimType
  | _ => false
  end.

Definition claim_number_ok (s : string) : bool :=
  min_length 1 s && test_CLM s.

Definition policy_number_ok (s : string) : bool :=
  min_length 1 s && min_length 5 s && max_length 50 s.

(** [/^[a-zA-Z\s\-'\.]+$/] *)
Definition name_char (c : ascii) : bool :=
  is_lower c || is_upper c || is_space c
  || Ascii.eqb c "-" || Ascii.eqb c "'" || Ascii.eqb c ".".

Definition test_name (s : string) : bool :=
  (1 <=? length s)%nat && all_chars name_char s.

Definition patient_name_ok (s : string) : bool :=
  min_length 1 s && min_length 2 s && max_length 100 s && test_name s.

(** The numeral printed by [x.toFixed(2)], in hundredths: the integer n
    with n/100 nearest to x, the larger one on a tie, computed on the
    magnitude of a negative x. *)
Definition toFixed2 (x : Q) : Z :=
  if Qltb x 0 then - Qfloor (- x * 100 + (1 # 2))%Q
  else Qfloor (x * 100 + (1 # 2))%Q.

(** [Number(x.toFixed(2))]; from 1e21 on toFixed prints the number
    itself. *)
Definition Number_toFixed2 (x : Q) : Q :=
  if Qle_bool (10 ^ 21) (Qabs x) then x else (toFixed2 x # 100).

Definition two_decimal_places (amount : Q) : bool :=
  Qeq_bool (Number_toFixed2 amount) amount.

Definition claim_amount_ok (amount : Q) : bool :=
  Qltb 0 amount                      (* .positive() *)
  && Qle_bool (1 # 100) amount       (* .min(0.01) *)
  && Qle_bool amount 1000000         (* .max(1000000) *)
  && two_decimal_places amount.

Definition provider_name_ok (v : option string) : bool :=
  optional (max_length 200) v.

Definition codes_ok (v : option (list string)) : bool :=
  optional (fun l => forallb (min_length 1) l && (List.length l <=? 10)%nat) v.

(** z.infer<typeof claimValidationSchema> *)
Record ClaimFormData := {
  cf_claim_number : string;
  cf_policy_number : string;
  cf_patient_name : string;
  cf_date_of_service : string;
  cf_claim_amount : Q;
  cf_claim_type : raw;
  cf_provider_name : option string;
  cf_diagnosis_codes : option (list string);
  cf_procedure_codes : option (list string)
}.

(** z.infer<typeof updateClaimSchema> *)
Record UpdateClaimFormData := {
  up_id : string;
  up_claim_number : option string;
  up_policy_number : option string;
  up_patient_name : option string;
  up_date_of_service : option string;
  up_claim_amount : option Q;
  up_claim_type : option raw;
  up_provider_name : option string;
  up_diagnosis_codes : option (list string);
  up_procedure_codes : option (list string)
}.

(** z.infer<typeof claimFiltersSchema>, before the defaults are filled. *)
Record ClaimFiltersData := {
  fl_search : option string;
  fl_status : option raw;
  fl_claim_type : option raw;
  fl_date_from : option string;
  fl_date_to : option string;
  fl_skip : option Q;
  fl_limit : option Q
}.

Definition truthy (s : string) : bool := negb (String.eqb s "").

Section Schemas.

(** [new Date(s).getTime()] and [Date.parse(s)]: the instant in
    milliseconds, [None] for NaN. *)
Variable parseDate : string -> option Z.
(** [new Date().getTime()] when the schema runs. *)
Variable now : Z.
(** The test behind [z.string().uuid()]. *)
Variable isUuid : string -> bool.

Definition date_parses (date : string) : bool :=
  match parseDate date with
  | Some _ => true
  | None => false
  end.

Definition date_not_in_future (date : string) : bool :=
  match parseDate date with
  | Some parsedDate => parsedDate <=? now
  | None => false
  end.

Definition date_of_service_ok (date : string) : bool :=
  min_length 1 date && date_parses date && date_not_in_future date.

Definition claimValidationSchema (d : ClaimFormData) : bool :=
  claim_number_ok d.(cf_claim_number)
  && policy_number_ok d.(cf_policy_number)
  && patient_name_ok d.(cf_patient_name)
  && date_of_service_ok d.(cf_date_of_service)
  && claim_amount_ok d.(cf_claim_amount)
  && nativeEnum_ClaimType d.(cf_claim_type)
  && provider_name_ok d.(cf_provider_name)
  && codes_ok d.(cf_diagnosis_codes)
  && codes_ok d.(cf_procedure_codes).

Definition createClaimSchema : ClaimFormData -> bool := claimValidationSchema.

(** claimValidationSchema.partial().extend({ id: z.string().uuid() }) *)
Definition updateClaimSchema (d : UpdateClaimFormData) : bool :=
  optional claim_number_ok d.(up_claim_number)
  && optional policy_number_ok d.(up_policy_number)
  && optional patient_name_ok d.(up_patient_name)
  && optional date_of_service_ok d.(up_date_of_service)
  && optional claim_amount_ok d.(up_claim_amount)
  && optional nativeEnum_ClaimType d.(up_claim_type)
  && provider_name_ok d.(up_provider_name)
  && codes_ok d.(up_diagnosis_codes)
  && codes_ok d.(up_procedure_codes)
  && isUuid d.(up_id).

(** [!date || !isNaN(Date.parse(date))] *)
Definition date_filter_ok (date : string) : bool :=
  negb (truthy date) || date_parses date.

(** The object-level refinement on date_from and date_to. *)
Definition date_range_ok (d : ClaimFiltersData) : bool :=
  match d.(fl_date_from), d.(fl_date_to) with
  | Some date_from, Some date_to =>
      if truthy date_from && truthy date_to then
        match parseDate date_from, parseDate date_to with
        | Some a, Some b => a <=? b
        | _, _ => false
        end
      else true
  | _, _ => true
  end.

Definition claimFiltersSchema (d : ClaimFiltersData) : bool :=
  optional (max_length 100) d.(fl_search)
  && optional nativeEnum_ClaimType d.(fl_status)
  && optional nativeEnum_ClaimType d.(fl_claim_type)
  && optional date_filter_ok d.(fl_date_from)
  && optional date_filter_ok d.(fl_date_to)
  && optional (Qle_bool 0) d.(fl_skip)
  && optional (fun x => Qle_bool 1 x && Qle_bool x 100) d.(fl_limit)
  && date_range_ok d.

End Schemas.

Definition set_status (d : ClaimFiltersData) (v : option raw) : ClaimFiltersData :=
  {| fl_search := d.(fl_search); fl_status := v;
     fl_claim_type := d.(fl_claim_type);
     fl_date_from := d.(fl_date_from); fl_date_to := d.(fl_date_to);
     fl_skip := d.(fl_skip); fl_limit := d.(fl_limit) |}.

Definition set_claim_amount (d : ClaimFormData) (amount : Q) : ClaimFormData :=
  {| cf_claim_number := d.(cf_claim_number);
     cf_policy_number := d.(cf_policy_number);
     cf_patient_name := d.(cf_patient_name);
     cf_date_of_service := d.(cf_date_of_service);
     cf_claim_amount := amount;
     cf_claim_type := d.(cf_claim_type);
     cf_provider_name := d.(cf_provider_name);
     cf_diagnosis_codes := d.(cf_diagnosis_codes);
     cf_procedure_codes := d.(cf_procedure_codes) |}.

Definition set_date_of_service (d : ClaimFormData) (date : string) : ClaimFormData :=
  {| cf_claim_number := d.(cf_claim_number);
     cf_policy_number := d.(cf_policy_number);
     cf_patient_name := d.(cf_patient_name);
     cf_date_of_service := date;
     cf_claim_amount := d.(cf_claim_amount);
     cf_claim_type := d.(cf_claim_type);
     cf_provider_name := d.(cf_provider_name);
     cf_diagnosis_codes := d.(cf_diagnosis_codes);
     cf_procedure_codes := d.(cf_procedure_codes) |}.


End Validation.

(* ------------------------------------------------------------------ *)
(** ** utils: claim numbers and confidence display *)

Module Utils.
Import Js.

(** generateClaimNumber, as a function of the two readings it takes from
    the environment: [now] is [Date.now()] and [rnd] the radix-36
    fraction digits of [Math.random()]. *)
Definition generateClaimNumber (now : Z) (rnd : list nat) : string :=
  let timestamp := slice_last 6 (toString now) in
  let random := toUpperCase (substr 2 4 (fraction_toString36 rnd)) in
  "CLM" ++ timestamp ++ random.

Definition isValidClaimNumber (claimNumber : string) : bool :=
  let claimRegex := test_CLM in
  claimRegex claimNumber.

Definition getConfidenceColor (confidence : Q) : string :=
  if Qle_bool (8 # 10) confidence then "text-green-600"
  else if Qle_bool (6 # 10) confidence then "text-yellow-600"
  else "text-red-600".

Definition formatConfidence (confidence : Q) : string :=
  toString (Math_round (confidence * 100)%Q) ++ "%".

End Utils.


(* ------------------------------------------------------------------ *)
(** ** The edit form (pages/EditClaim.tsx) and the update request *)

Module EditClaim.
Import Js Types Validation.

(** [s.split('T')[0]] *)
Fixpoint before_T (s : string) : string :=
  match s with
  | EmptyString => EmptyString
  | String c r => if Ascii.eqb c "T" then EmptyString else String c (before_T r)
  end.

Section Schema.
Variable parseDate : string -> option Z.

(** editClaimSchema, field by field. *)
Definition edit_claim_number_ok (s : string) : bool :=
  min_length 1 s && test_CLM s.
Definition edit_policy_number_ok (s : string) : bool :=
  min_length 1 s && min_length 5 s.
Definition edit_patient_name_ok (s : string) : bool :=
  min_length 1 s && min_length 2 s && max_length 100 s.
Definition edit_date_ok (s : string) : bool :=
  min_length 1 s && date_parses parseDate s.
Definition edit_amount_ok (amount : Q) : bool :=
  Qltb 0 amount && Qle_bool (1 # 100) amount && Qle_bool amount 1000000.

Definition editClaimSchema (d : ClaimUpdate) : bool :=
  optional edit_claim_number_ok d.(cu_claim_number)
  && optional edit_policy_number_ok d.(cu_policy_number)
  && optional edit_patient_name_ok d.(cu_patient_name)
  && optional edit_date_ok d.(cu_date_of_service)
  && optional edit_amount_ok d.(cu_claim_amount).
End Schema.

(** The values the form is reset to when the claim has loaded. *)
Definition resetValues (claim : Claim) : ClaimUpdate :=
  {| cu_claim_number := Some claim.(claim_number);
     cu_policy_number := Some claim.(policy_number);
     cu_patient_name := Some claim.(patient_name);
     cu_date_of_service := Some (before_T claim.(date_of_service));
     cu_claim_amount := Some claim.(claim_amount);
     cu_claim_type := Some claim.(claim_type);
     cu_status := None;
     cu_provider_name :=
       Some match claim.(provider_name) with
            | Some p => if truthy p then p else ""
            | None => ""
            end;
     cu_diagnosis_codes :=
       Some match claim.(diagnosis_codes) with Some l => l | None => [] end;
     cu_procedure_codes :=
       Some match claim.(procedure_codes) with Some l => l | None => [] end |}.



End EditClaim.

(* ------------------------------------------------------------------ *)
(** ** services/api: retryRequest *)

Module Api.

(** What a rejected request throws: an AxiosError with the status of
    its response ([None] when there is no response or no status), or
    any other error. *)
Inductive JsError :=
| AxiosError (response_status : option Z)
| OtherError (message : string).

Inductive Result (T : Type) :=
| Ok (value : T)
| Err (error : JsError).
Arguments Ok {T} value.
Arguments Err {T} error.

(** How retryRequest ends: it returns a value or throws; [Threw None]
    is the throw of the still unassigned lastError. *)
Inductive Outcome (T : Type) :=
| Returned (value : T)
| Threw (error : option JsError).
Arguments Returned {T} value.
Arguments Threw {T} error.

Inductive Effect :=
| Invoke            (* one call of requestFn *)
| Wait (ms : Z).    (* setTimeout(resolve, ms), awaited *)

(** The state threaded through a run: how often requestFn has been
    called, and the effects in order. *)
Record World := { calls : nat; log : list Effect }.

Definition M (A : Type) : Type := World -> A * World.
Definition ret {A} (a : A) : M A := fun w => (a, w).
Definition bind {A B} (m : M A) (k : A -> M B) : M B :=
  fun w => let (a, w') := m w in k a w'.

Notation "x <- m ;; k" := (bind m (fun x => k))
  (at level 61, m at next level, right associativity).
Notation "m ;;; k" := (bind m (fun _ => k))
  (at level 61, right associativity).

(** [error instanceof AxiosError && error.response?.status
     && error.response.status < 500] *)
Definition isClientError (error : JsError) : bool :=
  match error with
  | AxiosError (Some st) => negb (st =? 0) && (st <? 500)
  | _ => false
  end.

Section Retry.
Context {T : Type}.
(** requestFn: the result of its k-th call, counted from 0. *)
Variable requestFn : nat -> Result T.
Variables maxRetries delay : Z.

Definition invoke : M (Result T) :=
  fun w => (requestFn w.(calls),
            {| calls := S w.(calls); log := w.(log) ++ [Invoke] |}).

Definition sleep (ms : Z) : M unit :=
  fun w => (tt, {| calls := w.(calls); log := w.(log) ++ [Wait ms] |}).

(** The for loop, with [remaining] iterations left before the test
    [attempt <= maxRetries] fails. *)
Fixpoint attempts (remaining : nat) (attempt : Z) (lastError : option JsError)
  : M (Outcome T) :=
  match remaining with
  | O => ret (Threw lastError)
  | S k =>
      r <- invoke ;;
      match r with
      | Ok v => ret (Returned v)
      | Err error =>
          if isClientError error then ret (Threw (Some error))
          else
            (if attempt <? maxRetries
             then sleep (delay * 2 ^ (attempt - 1))
             else ret tt) ;;;
            attempts k (attempt + 1) (Some error)
      end
  end.

Definition retryRequest : M (Outcome T) :=
  attempts (Z.to_nat maxRetries) 1 None.

End Retry.

Definition start : World := {| calls := O; log := [] |}.

(** The effects of a run that exhausts n attempts starting at
    [attempt]: a call, then a wait unless it was the last attempt. *)
Fixpoint exhausted_log (delay maxRetries : Z) (n : nat) (attempt : Z) : list Effect :=
  match n with
  | O => []
  | S k =>
      Invoke ::
      (if attempt <? maxRetries then [Wait (delay * 2 ^ (attempt - 1))] else [])
      ++ exhausted_log delay maxRetries k (attempt + 1)
  end.

(** The waits after attempts a, a+1, ..., a+n-1. *)
Fixpoint backoffs (delay a : Z) (n : nat) : list Z :=
  match n with
  | O => []
  | S k => delay * 2 ^ (a - 1) :: backoffs delay (a + 1) k
  end.

Definition invocations (l : list Effect) : nat :=
  List.length (filter (fun e => match e with Invoke => true | Wait _ => false end) l).

Fixpoint waits (l : list Effect) : list Z :=
  match l with
  | [] => []
  | Invoke :: r => waits r
  | Wait ms :: r => ms :: waits r
  end.

Definition error_of {T} (r : Result T) : option JsError :=
  match r with
  | Err error => Some error
  | Ok _ => None
  end.

Definition is_5xx (error : JsError) : Prop :=
  exists st, error = AxiosError (Some st) /\ 500 <= st <= 599.


End Api.

(* ------------------------------------------------------------------ *)
(** ** Lifecycle engine *)

Module Lifecycle.
Import Js Types.

(** Modelled from the spec: the events the Lifecycle Engine receives
    (section 4.1); the engine is not part of the sources. *)
Inductive Event :=
| DocumentAttached
| ExtractionCompleted (overall_confidence : Q)
| DataQualityPassed
| ConfidenceRouting (overall_confidence : Q) (mandatory_review : bool)
| ReviewerDecision (approve : bool)
| ClaimValidationPassed
| PayerSubmission
| Settlement
| Rejection.

(** Modelled from the spec: the default review threshold, 0.80. *)
Definition default_review_threshold : Q := 80 # 100.

(** Modelled from the spec: the routing out of DQ_VALIDATED, to
    HUMAN_REVIEW when the overall confidence is below the threshold or a
    mandatory-review rule fires, otherwise to CONSENT_VERIFIED. *)
Definition route (review_threshold overall_confidence : Q)
    (mandatory_review : bool) : ClaimStatus :=
  if Qltb overall_confidence review_threshold || mandatory_review
  then HUMAN_REVIEW else CONSENT_VERIFIED.

(** Modelled from the spec: the transition rules of section 4.1, as the
    table of edges; [None] is an event with no edge from the state. *)
Definition next (review_threshold : Q) (s : ClaimStatus) (e : Event)
  : option ClaimStatus :=
  match s, e with
  | RECEIVED, DocumentAttached => Some OCR_PROCESSING
  | OCR_PROCESSING, ExtractionCompleted _ => Some PII_MASKED
  | PII_MASKED, DataQualityPassed => Some DQ_VALIDATED
  | DQ_VALIDATED, ConfidenceRouting c m => Some (route review_threshold c m)
  | HUMAN_REVIEW, ReviewerDecision true => Some CONSENT_VERIFIED
  | HUMAN_REVIEW, ReviewerDecision false => Some REJECTED
  | CONSENT_VERIFIED, ClaimValidationPassed => Some CLAIM_VALIDATED
  | CLAIM_VALIDATED, PayerSubmission => Some PAYER_SUBMITTED
  | PAYER_SUBMITTED, Settlement => Some SETTLED
  | (RECEIVED | OCR_PROCESSING | PII_MASKED | DQ_VALIDATED | HUMAN_REVIEW
     | CONSENT_VERIFIED | CLAIM_VALIDATED | PAYER_SUBMITTED), Rejection =>
      Some REJECTED
  | _, _ => None
  end.

(** Modelled from the spec: the error of an event that is not valid
    from the current state. *)
Inductive AdvanceError :=
| InvalidTransition (current : ClaimStatus) (attempted : Event).

(** Modelled from the spec: a claim with its status replaced, every
    other field kept. *)
Definition with_status (claim : Claim) (s : ClaimStatus) : Claim :=
  {| id := claim.(id); claim_number := claim.(claim_number);
     policy_number := claim.(policy_number);
     patient_name := claim.(patient_name);
     date_of_service := claim.(date_of_service);
     claim_amount := claim.(claim_amount);
     claim_type := claim.(claim_type);
     status := s;
     provider_name := claim.(provider_name);
     diagnosis_codes := claim.(diagnosis_codes);
     procedure_codes := claim.(procedure_codes);
     ocr_confidence_score := claim.(ocr_confidence_score);
     requires_human_review := claim.(requires_human_review) |}.

(** Modelled from the spec: the Orchestrator's Advance on one claim
    (section 4.3, steps 2, 4 and 6): the stored claim afterwards and
    the result returned, the new snapshot or the error. *)
Definition Advance (review_threshold : Q) (claim : Claim) (e : Event)
  : Claim * (AdvanceError + Claim) :=
  match next review_threshold claim.(status) e with
  | Some s' => let claim' := with_status claim s' in (claim', inr claim')
  | None => (claim, inl (InvalidTransition claim.(status) e))
  end.

End Lifecycle.

(* ------------------------------------------------------------------ *)
(** ** What the specification states where the sources differ *)

Module Stated.
Import Js Types Validation.



(** "Accepted if and only if positive with at most 2 fractional
    digits". *)
Definition positive_two_decimals (amount : Q) : Prop :=
  (0 < amount)%Q /\ exists k : Z, (amount == k # 100)%Q.

End Stated.

(* ------------------------------------------------------------------ *)
(** ** Concrete inputs *)

Module Sample.
Import Js Types Validation.

Definition is_hex (c : ascii) : bool :=
  is_digit c || in_range 97 102 c || in_range 65 70 c.

(** Consume exactly k hexadecimal digits. *)
Fixpoint hex_run (k : nat) (s : string) : option string :=
  match k, s with
  | O, _ => Some s
  | S k', String c r => if is_hex c then hex_run k' r else None
  | S _, EmptyString => None
  end.

Definition dash_then (k : nat) (s : option string) : option string :=
  match s with
  | Some (String "-" r) => hex_run k r
  | _ => None
  end.

(** The 8-4-4-4-12 hexadecimal shape of a UUID. *)
Definition uuid_shape (s : string) : bool :=
  match dash_then 12 (dash_then 4 (dash_then 4 (dash_then 4 (hex_run 8 s)))) with
  | Some EmptyString => true
  | _ => false
  end.

(** A date parser defined on three ISO dates (UTC midnight). *)
Definition parseDate (s : string) : option Z :=
  if String.eqb s "2024-01-15" then Some 1705276800000
  else if String.eqb s "2024-03-01" then Some 1709251200000
  else if String.eqb s "2030-01-01" then Some 1893456000000
  else None.

(** 2024-11-01T22:26:40Z *)
Definition now : Z := 1730500000000.

Definition form : ClaimFormData :=
  {| cf_claim_number := "CLM000123A3Z0";
     cf_policy_number := "POL-12345";
     cf_patient_name := "Mary O'Neil-Smith Jr.";
     cf_date_of_service := "2024-01-15";
     cf_claim_amount := 12550 # 100;
     cf_claim_type := RStr "MEDICAL";
     cf_provider_name := Some "City Clinic";
     cf_diagnosis_codes := Some ["M54.5"];
     cf_procedure_codes := None |}.

Definition stored : Claim :=
  {| id := "123e4567-e89b-12d3-a456-426614174000";
     claim_number := "CLM000123A3Z0";
     policy_number := "POL-12345";
     patient_name := "Mary O'Neil-Smith Jr.";
     date_of_service := "2024-01-15T00:00:00";
     claim_amount := 12550 # 100;
     claim_type := MEDICAL;
     status := RECEIVED;
     provider_name := Some "City Clinic";
     diagnosis_codes := Some ["M54.5"];
     procedure_codes := None;
     ocr_confidence_score := None;
     requires_human_review := None |}.

(** An update payload that renumbers the stored claim. *)
Definition renumbering : UpdateClaimFormData :=
  {| up_id := "123e4567-e89b-12d3-a456-426614174000";
     up_claim_number := Some "CLM999999ZZ";
     up_policy_number := None;
     up_patient_name := None;
     up_date_of_service := None;
     up_claim_amount := None;
     up_claim_type := None;
     up_provider_name := None;
     up_diagnosis_codes := None;
     up_procedure_codes := None |}.

Definition no_filters : ClaimFiltersData :=
  {| fl_search := None; fl_status := None; fl_claim_type := None;
     fl_date_from := Some "2024-01-15"; fl_date_to := Some "2024-03-01";
     fl_skip := None; fl_limit := Some 20%Q |}.

(** A request that answers 503 on every call, and one that answers 404
    on the first. *)
Definition always_503 (k : nat) : Api.Result unit :=
  Api.Err (Api.AxiosError (Some 503)).


End Sample.

From Stdlib Require Import Sorting.Sorted Sorting.Permutation.

(* ------------------------------------------------------------------ *)
(** ** utils: text helpers *)

Module Text.
Import Js.

(** [s.slice(0, e)] for an integer e: a negative e counts from the
    end. *)
Definition slice0 (e : Z) (s : string) : string :=
  if e <? 0 then take (length s - Z.to_nat (- e)) s else take (Z.to_nat e) s.

Definition truncateText (text : string) (maxLength : Z) : string :=
  if Z.of_nat (length text) <=? maxLength then text
  else slice0 maxLength text ++ "...".

(** [s.split(c)] for a one-character separator: the pieces between the
    occurrences of c, at least one piece. *)
Fixpoint split (c : ascii) (s : string) : list string :=
  match s with
  | EmptyString => [EmptyString]
  | String x r =>
      if Ascii.eqb x c then EmptyString :: split c r
      else match split c r with
           | h :: t => String x h :: t
           | [] => [String x EmptyString]
           end
  end.

(** [part.charAt(0)] as a string: empty for the empty string. *)
Definition charAt0 (part : string) : string := take 1 part.

(** [parts.join('')] *)
Definition join (parts : list string) : string :=
  fold_right append EmptyString parts.

(** getInitials; toUpperCase as in [Js], so for names in ASCII. *)
Definition getInitials (name : string) : string :=
  join (firstn 2 (map (fun part => toUpperCase (charAt0 part)) (split " " name))).

(** [c.toLowerCase()] on the code units below 256: A-Z and the accented
    capitals 192-222 (but not the multiplication sign, 215) move up
    by 32. *)
Definition lower_char (c : ascii) : ascii :=
  let n := nat_of_ascii c in
  if is_upper c || (in_range 192 222 c && negb (n =? 215)%nat)
  then ascii_of_nat (n + 32) else c.

Fixpoint toLowerCase (s : string) : string :=
  match s with
  | EmptyString => EmptyString
  | String c r => String (lower_char c) (toLowerCase r)
  end.

(** [filename.split('.').pop()?.toLowerCase() || ''] *)
Definition getFileExtension (filename : string) : string :=
  toLowerCase (last (split "." filename) EmptyString).

Definition includes (l : list string) (x : string) : bool :=
  existsb (String.eqb x) l.

Definition isImageFile (filename : string) : bool :=
  let imageExtensions := ["jpg"; "jpeg"; "png"; "gif"; "bmp"; "webp"; "svg"] in
  includes imageExtensions (getFileExtension filename).

Definition isPDFFile (filename : string) : bool :=
  String.eqb (getFileExtension filename) "pdf".

(** The string holds no occurrence of the character. *)
Definition no_char (c : ascii) (s : string) : bool :=
  all_chars (fun x => negb (Ascii.eqb x c)) s.

(** generateId, as a function of the radix-36 fraction digits of
    [Math.random()]. *)
Definition generateId (rnd : list nat) : string :=
  substr 2 9 (fraction_toString36 rnd).

End Text.

(* ------------------------------------------------------------------ *)
(** ** Regular expressions, and utils: isValidEmail *)

Module Regex.
Import Js.

(** The fragment of regular expressions the e-mail test is written in;
    [test] on a pattern anchored by ^ and $ is membership of the whole
    string. *)
Inductive re :=
| Void
| Eps
| Cls (p : ascii -> bool)
| Cat (r1 r2 : re)
| Alt (r1 r2 : re)
| Star (r : re).

Definition Plus (r : re) : re := Cat r (Star r).

Fixpoint nullable (r : re) : bool :=
  match r with
  | Void => false
  | Eps => true
  | Cls _ => false
  | Cat r1 r2 => nullable r1 && nullable r2
  | Alt r1 r2 => nullable r1 || nullable r2
  | Star _ => true
  end.

Fixpoint deriv (c : ascii) (r : re) : re :=
  match r with
  | Void => Void
  | Eps => Void
  | Cls p => if p c then Eps else Void
  | Cat r1 r2 =>
      if nullable r1 then Alt (Cat (deriv c r1) r2) (deriv c r2)
      else Cat (deriv c r1) r2
  | Alt r1 r2 => Alt (deriv c r1) (deriv c r2)
  | Star r1 => Cat (deriv c r1) (Star r1)
  end.

Fixpoint test (r : re) (s : string) : bool :=
  match s with
  | EmptyString => nullable r
  | String c s' => test (deriv c r) s'
  end.

(** [[^\s@]] *)
Definition not_space_at (c : ascii) : bool :=
  negb (is_space c || Ascii.eqb c "@").

(** [/^[^\s@]+@[^\s@]+\.[^\s@]+$/] *)
Definition emailRegex : re :=
  Cat (Plus (Cls not_space_at))
    (Cat (Cls (Ascii.eqb "@"))
       (Cat (Plus (Cls not_space_at))
          (Cat (Cls (Ascii.eqb ".")) (Plus (Cls not_space_at))))).

Definition isValidEmail (email : string) : bool := test emailRegex email.

(** The strings a pattern denotes. *)
Inductive lang : re -> string -> Prop :=
| L_Eps : lang Eps EmptyString
| L_Cls p c : p c = true -> lang (Cls p) (String c EmptyString)
| L_Cat r1 r2 s1 s2 : lang r1 s1 -> lang r2 s2 -> lang (Cat r1 r2) (s1 ++ s2)
| L_AltL r1 r2 s : lang r1 s -> lang (Alt r1 r2) s
| L_AltR r1 r2 s : lang r2 s -> lang (Alt r1 r2) s
| L_Star0 r : lang (Star r) EmptyString
| L_StarS r s1 s2 : lang r s1 -> lang (Star r) s2 -> lang (Star r) (s1 ++ s2).

Fixpoint count_char (c : ascii) (s : string) : nat :=
  match s with
  | EmptyString => O
  | String x r => ((if Ascii.eqb x c then 1 else 0) + count_char c r)%nat
  end.

(** The shape local@domain.tld, each part non-empty and free of white
    space and at signs. *)
Definition email_parts (email : string) : Prop :=
  exists local domain tld,
    email = local ++ "@" ++ domain ++ "." ++ tld
    /\ (local <> "" /\ all_chars not_space_at local = true)
    /\ (domain <> "" /\ all_chars not_space_at domain = true)
    /\ (tld <> "" /\ all_chars not_space_at tld = true).

End Regex.

(* ------------------------------------------------------------------ *)
(** ** utils: sortBy and groupBy *)

Module Collections.

Section SortBy.
Context {T : Type}.
(** [a[key]], for a key whose values are integers. *)
Variable key : T -> Z.

Inductive Direction := asc | desc.

(** The comparator passed to [array.sort]. *)
Definition compareFn (direction : Direction) (a b : T) : Z :=
  let aVal := key a in
  let bVal := key b in
  if aVal =? bVal then 0
  else
    let comparison := if aVal <? bVal then -1 else 1 in
    match direction with
    | asc => comparison
    | desc => - comparison
    end.

(** [Array.prototype.sort] with a consistent comparator yields the one
    stable arrangement in comparator order; it is computed here by stable
    insertion: an element goes behind everything that does not compare
    greater. *)
Fixpoint insert (cmp : T -> T -> Z) (x : T) (l : list T) : list T :=
  match l with
  | [] => [x]
  | y :: r => if 0 <? cmp y x then x :: y :: r else y :: insert cmp x r
  end.

Definition Array_sort (cmp : T -> T -> Z) (array : list T) : list T :=
  fold_left (fun sorted x => insert cmp x sorted) array [].

Definition sortBy (array : list T) (direction : Direction) : list T :=
  Array_sort (compareFn direction) array.

End SortBy.

(** The property names every plain object inherits from
    [Object.prototype]; reading one of them from [{}] yields a function or
    an object, never an array. *)
Definition Object_prototype_names : list string :=
  ["constructor"; "__defineGetter__"; "__defineSetter__"; "hasOwnProperty";
   "__lookupGetter__"; "__lookupSetter__"; "isPrototypeOf";
   "propertyIsEnumerable"; "toString"; "valueOf"; "__proto__";
   "toLocaleString"].

Definition inherited (name : string) : bool :=
  existsb (String.eqb name) Object_prototype_names.

Section GroupBy.
Context {T : Type}.
(** [String(item[key])] *)
Variable key : T -> string.

(** The own properties of the accumulator object. *)
Definition Groups := list (string * list T).

Fixpoint get (groups : Groups) (group : string) : option (list T) :=
  match groups with
  | [] => None
  | (g, items) :: r => if String.eqb g group then Some items else get r group
  end.

Fixpoint set (groups : Groups) (group : string) (items : list T) : Groups :=
  match groups with
  | [] => [(group, items)]
  | (g, old) :: r =>
      if String.eqb g group then (g, items) :: r else (g, old) :: set r group items
  end.

(** One step of the reducer; [None] is the TypeError of calling [push] on
    an inherited property, which is not an array. *)
Definition reducer (groups : Groups) (item : T) : option Groups :=
  let group := key item in
  match get groups group with
  | Some items => Some (set groups group (items ++ [item]))
  | None =>
      if inherited group then None
      else Some (set groups group ([] ++ [item]))
  end.

Fixpoint reduce (array : list T) (groups : Groups) : option Groups :=
  match array with
  | [] => Some groups
  | item :: r =>
      match reducer groups item with
      | Some groups' => reduce r groups'
      | None => None
      end
  end.

Definition groupBy (array : list T) : option Groups := reduce array [].

(** The items of the array with a given group key, in array order. *)
Definition members (array : list T) (group : string) : list T :=
  filter (fun item => String.eqb (key item) group) array.

(** The property expected under a group key: its members, or no property
    when there are none. *)
Definition lookup_of (array : list T) (group : string) : option (list T) :=
  match members array group with
  | [] => None
  | items => Some items
  end.

End GroupBy.

End Collections.

(* ------------------------------------------------------------------ *)
(** ** utils: the status badge table *)

Module StatusConfig.
Import Types.

Record StatusBadgeConfig := {
  label : string;
  color : string;
  bgColor : string;
  textColor : string
}.

Definition statusConfig (s : ClaimStatus) : StatusBadgeConfig :=
  match s with
  | RECEIVED =>
      {| label := "Received";
         color := "bg-blue-100 text-blue-800 border-blue-200";
         bgColor := "bg-blue-500"; textColor := "text-blue-800" |}
  | OCR_PROCESSING =>
      {| label := "Processing";
         color := "bg-yellow-100 text-yellow-800 border-yellow-200";
         bgColor := "bg-yellow-500"; textColor := "text-yellow-800" |}
  | PII_MASKED =>
      {| label := "PII Masked";
         color := "bg-purple-100 text-purple-800 border-purple-200";
         bgColor := "bg-purple-500"; textColor := "text-purple-800" |}
  | DQ_VALIDATED =>
      {| label := "DQ Validated";
         color := "bg-cyan-100 text-cyan-800 border-cyan-200";
         bgColor := "bg-cyan-500"; textColor := "text-cyan-800" |}
  | HUMAN_REVIEW =>
      {| label := "Human Review";
         color := "bg-orange-100 text-orange-800 border-orange-200";
         bgColor := "bg-orange-500"; textColor := "text-orange-800" |}
  | CONSENT_VERIFIED =>
      {| label := "Consent Verified";
         color := "bg-indigo-100 text-indigo-800 border-indigo-200";
         bgColor := "bg-indigo-500"; textColor := "text-indigo-800" |}
  | CLAIM_VALIDATED =>
      {| label := "Validated";
         color := "bg-green-100 text-green-800 border-green-200";
         bgColor := "bg-green-500"; textColor := "text-green-800" |}
  | PAYER_SUBMITTED =>
      {| label := "Submitted";
         color := "bg-teal-100 text-teal-800 border-teal-200";
         bgColor := "bg-teal-500"; textColor := "text-teal-800" |}
  | SETTLED =>
      {| label := "Settled";
         color := "bg-emerald-100 text-emerald-800 border-emerald-200";
         bgColor := "bg-emerald-500"; textColor := "text-emerald-800" |}
  | REJECTED =>
      {| label := "Rejected";
         color := "bg-red-100 text-red-800 border-red-200";
         bgColor := "bg-red-500"; textColor := "text-red-800" |}
  end.

(** getStatusConfig on a status of the enum: the entry is always there,
    so the fallback to RECEIVED is not taken. *)
Definition getStatusConfig (s : ClaimStatus) : StatusBadgeConfig := statusConfig s.

(** The option list of the dashboard's status filter. *)
Definition statusOptions : list (string * string) :=
  ("", "All Statuses")
  :: map (fun s => (ClaimStatus_value s, label (getStatusConfig s))) all_ClaimStatus.

End StatusConfig.

(* ------------------------------------------------------------------ *)
(** ** services/api: error messages and query strings *)

Module ApiClient.
Import Js.

(** [error.response]: the status and [data?.detail] of the response. *)
Record ErrorResponse := {
  status_code : Z;
  detail : option string
}.

(** getErrorMessage, on [error.response] ([None] when there is none). *)
Definition getErrorMessage (response : option ErrorResponse) : string :=
  match response with
  | None => "Network error. Please check your connection and try again."
  | Some r =>
      let fallback :=
        let status := r.(status_code) in
        if status =? 400 then "Invalid request. Please check your input and try again."
        else if status =? 401 then "Authentication required. Please log in."
        else if status =? 403
          then "Access denied. You don't have permission to perform this action."
        else if status =? 404 then "The requested resource was not found."
        else if status =? 422 then "Validation error. Please check your input."
        else if status =? 500 then "Server error. Please try again later."
        else if (status =? 502) || (status =? 503) || (status =? 504)
          then "Service temporarily unavailable. Please try again later."
        else "An unexpected error occurred. Please try again." in
      match r.(detail) with
      | Some d => if Validation.truthy d then d else fallback
      | None => fallback
      end
  end.

(** The values a query parameter can take. *)
Inductive scalar :=
| SUndefined
| SNull
| SBool (b : bool)
| SNum (n : Z)
| SStr (s : string).

Inductive param :=
| PScalar (v : scalar)
| PArray (items : list scalar).

(** [String(value)] *)
Definition String_of (v : scalar) : string :=
  match v with
  | SUndefined => "undefined"
  | SNull => "null"
  | SBool true => "true"
  | SBool false => "false"
  | SNum n => toString n
  | SStr s => s
  end.

(** [value !== null && value !== undefined && value !== ''] *)
Definition is_set (v : scalar) : bool :=
  match v with
  | SUndefined | SNull => false
  | SStr s => Validation.truthy s
  | _ => true
  end.

(** buildQueryParams: the entries appended to the URLSearchParams, in
    order; the string returned is their form-urlencoded rendering. *)
Definition buildQueryParams (params : list (string * param)) : list (string * string) :=
  flat_map
    (fun entry : string * param =>
       let (key, value) := entry in
       match value with
       | PScalar v => if is_set v then [(key, String_of v)] else []
       | PArray items => map (fun item => (key, String_of item)) items
       end)
    params.

(** No parameter is an array. *)
Definition scalars_only (params : list (string * param)) : Prop :=
  forall k v, In (k, v) params -> exists sv, v = PScalar sv.

(** interface ClaimFilters *)
Record ClaimFilters := {
  skip : option Z;
  limit : option Z;
  status : option Types.ClaimStatus;
  search : option string;
  date_from : option string;
  date_to : option string;
  claim_type : option Types.ClaimType
}.

(** [n || d] on an optional number. *)
Definition or_number (v : option Z) (d : Z) : Z :=
  match v with
  | Some n => if n =? 0 then d else n
  | None => d
  end.

Definition opt_string (v : option string) : param :=
  match v with
  | Some s => PScalar (SStr s)
  | None => PScalar SUndefined
  end.

(** ClaimsService.getClaims: the entries of the query string it
    requests. *)
Definition getClaims_query (filters : ClaimFilters) : list (string * string) :=
  buildQueryParams
    [("skip", PScalar (SNum (or_number filters.(skip) 0)));
     ("limit", PScalar (SNum (or_number filters.(limit) 20)));
     ("status", opt_string (option_map Types.ClaimStatus_value filters.(status)));
     ("search", opt_string filters.(search));
     ("date_from", opt_string filters.(date_from));
     ("date_to", opt_string filters.(date_to));
     ("claim_type", opt_string (option_map Types.ClaimType_value filters.(claim_type)))].

End ApiClient.

(* ------------------------------------------------------------------ *)
(** ** pages/Dashboard: filter state and pagination *)

Module Dashboard.
Import Js.

(** The filters held in the component's state. *)
Record Filters := {
  skip : option Z;
  limit : option Z;
  status : option string;
  search : option string
}.

Definition initial : Filters :=
  {| skip := Some 0; limit := Some 20; status := None; search := Some "" |}.

(** [status || undefined] *)
Definition handleStatusFilter (value : string) (prev : Filters) : Filters :=
  {| skip := Some 0; limit := prev.(limit);
     status := if Validation.truthy value then Some value else None;
     search := prev.(search) |}.

Definition handleSearch (value : string) (prev : Filters) : Filters :=
  {| skip := Some 0; limit := prev.(limit);
     status := prev.(status); search := Some value |}.

Definition handlePageChange (newSkip : Z) (prev : Filters) : Filters :=
  {| skip := Some newSkip; limit := prev.(limit);
     status := prev.(status); search := prev.(search) |}.

(** [Math.floor(a / b)] and [Math.ceil(a / b)] on integers. *)
Definition floor_div (a b : Z) : Z := Qfloor (inject_Z a / inject_Z b).
Definition ceil_div (a b : Z) : Z := Qceiling (inject_Z a / inject_Z b).

(** [filters.limit!]: the limit, which the state always holds. *)
Definition totalPages (total limit : Z) : Z := ceil_div total limit.

Definition currentPage (f : Filters) : Z :=
  floor_div (ApiClient.or_number f.(skip) 0) (ApiClient.or_number f.(limit) 20) + 1.

(** The skip the Previous and Next buttons ask for. *)
Definition previousSkip (f : Filters) (limit : Z) : Z :=
  Z.max 0 (ApiClient.or_number f.(skip) 0 - limit).

Definition nextSkip (f : Filters) (limit : Z) : Z :=
  ApiClient.or_number f.(skip) 0 + limit.

(** The page-number buttons: [Array.from({ length: Math.min(5,
    totalPages) }, ...)], [None] where the callback returns null. *)
Definition pageButtons (f : Filters) (total limit : Z) : list (option Z) :=
  map (fun i : nat =>
         let pageNumber := Z.max 1 (currentPage f - 2) + Z.of_nat i in
         if totalPages total limit <? pageNumber then None else Some pageNumber)
      (seq 0 (Z.to_nat (Z.min 5 (totalPages total limit)))).

(** The skip a page button asks for. *)
Definition pageSkip (pageNumber limit : Z) : Z := (pageNumber - 1) * limit.

(** What the user can do to the filter state; the total is the one of the
    list shown when a pagination button is pressed. *)
Inductive Action :=
| SelectStatus (value : string)
| TypeSearch (value : string)
| Previous
| Next
| Page (total : Z) (index : nat).

Definition limit_of (f : Filters) : Z :=
  match f.(limit) with
  | Some l => l
  | None => 0
  end.

Definition step (f : Filters) (a : Action) : Filters :=
  match a with
  | SelectStatus v => handleStatusFilter v f
  | TypeSearch v => handleSearch v f
  | Previous => handlePageChange (previousSkip f (limit_of f)) f
  | Next => handlePageChange (nextSkip f (limit_of f)) f
  | Page total i =>
      match nth i (pageButtons f total (limit_of f)) None with
      | Some pageNumber => handlePageChange (pageSkip pageNumber (limit_of f)) f
      | None => f
      end
  end.

Definition run (actions : list Action) : Filters := fold_left step actions initial.

(** The limit is the initial 20 and the skip a whole number of pages. *)
Definition page_aligned (f : Filters) : Prop :=
  f.(limit) = Some 20 /\ exists k, 0 <= k /\ f.(skip) = Some (20 * k).

End Dashboard.

(* ------------------------------------------------------------------ *)
(** ** pages/CreateClaim: the form's own schema *)

Module CreateClaim.
Import Js Validation.

Section Schema.
Variable parseDate : string -> option Z.

Definition claimSchema (d : ClaimFormData) : bool :=
  (min_length 1 d.(cf_claim_number) && test_CLM d.(cf_claim_number))
  && (min_length 1 d.(cf_policy_number) && min_length 5 d.(cf_policy_number))
  && (min_length 1 d.(cf_patient_name) && min_length 2 d.(cf_patient_name)
      && max_length 100 d.(cf_patient_name))
  && (min_length 1 d.(cf_date_of_service) && date_parses parseDate d.(cf_date_of_service))
  && (Qltb 0 d.(cf_claim_amount) && Qle_bool (1 # 100) d.(cf_claim_amount)
      && Qle_bool d.(cf_claim_amount) 1000000)
  && nativeEnum_ClaimType d.(cf_claim_type).

End Schema.

End CreateClaim.

(* ------------------------------------------------------------------ *)
(** ** Trimming, and the values derived from it *)

Module Trim.
Import Js.

(** [s.trimStart()], [s.trimEnd()] and [s.trim()]: white space and line
    terminators are the code units of [\s]. *)
Fixpoint trimStart (s : string) : string :=
  match s with
  | EmptyString => EmptyString
  | String c r => if is_space c then trimStart r else s
  end.

Fixpoint trimEnd (s : string) : string :=
  match s with
  | EmptyString => EmptyString
  | String c r =>
      match trimEnd r with
      | EmptyString => if is_space c then EmptyString else String c EmptyString
      | r' => String c r'
      end
  end.

Definition trim (s : string) : string := trimEnd (trimStart s).

Definition first_char (s : string) : option ascii :=
  match s with
  | EmptyString => None
  | String c _ => Some c
  end.

Fixpoint last_char (s : string) : option ascii :=
  match s with
  | EmptyString => None
  | String c EmptyString => Some c
  | String _ r => last_char r
  end.

(** The transform of the provider_name field:
    [val => val?.trim() || undefined]. *)
Definition provider_name_transform (val : option string) : option string :=
  match val with
  | None => None
  | Some s => if Validation.truthy (trim s) then Some (trim s) else None
  end.

(** What isEmpty looks at in a value: an array's length, an object's own
    enumerable keys. *)
Inductive value :=
| VUndefined
| VNull
| VBool (b : bool)
| VNum (x : Q)
| VStr (s : string)
| VArray (length : nat)
| VObject (keys : list string).

Definition isEmpty (v : value) : bool :=
  match v with
  | VNull | VUndefined => true
  | VStr s => String.eqb (trim s) ""
  | VArray n => (n =? 0)%nat
  | VObject keys => (List.length keys =? 0)%nat
  | _ => false
  end.

End Trim.

(* ------------------------------------------------------------------ *)
(** ** A creation form as an update payload *)

Module Payload.
Import Validation.



End Payload.

(* ================================================================== *)
(** * Properties *)

(* ------------------------------------------------------------------ *)
(** ** Strings and numerals *)

Section JsFacts.
Import Js.

Lemma all_chars_app p s t :
  all_chars p (s ++ t) = all_chars p s && all_chars p t.
Proof.
  induction s as [|c s IH]; simpl; [reflexivity|].
  rewrite IH. now rewrite andb_assoc.
Qed.

Lemma length_app s t : length (s ++ t) = (length s + length t)%nat.
Proof. induction s as [|c s IH]; simpl; congruence. Qed.

Lemma all_chars_drop p k s : all_chars p s = true -> all_chars p (drop k s) = true.
Proof.
  revert s; induction k as [|k IH]; intros [|c s]; simpl; auto.
  intros H. apply andb_prop in H. apply IH, H.
Qed.

Lemma all_chars_take p k s : all_chars p s = true -> all_chars p (take k s) = true.
Proof.
  revert s; induction k as [|k IH]; intros [|c s]; simpl; auto.
  intros H. apply andb_prop in H. destruct H as [Hc Hs].
  rewrite Hc. simpl. now apply IH.
Qed.

Lemma length_drop k s : length (drop k s) = (length s - k)%nat.
Proof.
  revert s; induction k as [|k IH]; intros [|c s]; simpl; auto.
Qed.

Lemma length_slice_last k s :
  (k <= length s)%nat -> length (slice_last k s) = k.
Proof. intros H. unfold slice_last. rewrite length_drop. lia. Qed.

Lemma all_chars_weaken (p q : ascii -> bool) s :
  (forall c, p c = true -> q c = true) ->
  all_chars p s = true -> all_chars q s = true.
Proof.
  intros Hpq. induction s as [|c s IH]; simpl; [reflexivity|].
  intros H. apply andb_prop in H. destruct H as [Hc Hs].
  now rewrite (Hpq _ Hc), IH.
Qed.

Lemma is_digit_digit_char d : 0 <= d < 10 -> is_digit (digit_char d) = true.
Proof.
  intros H. unfold digit_char.
  assert (Hk : (Z.to_nat d < 10)%nat) by lia.
  destruct (Z.to_nat d) as [|k]; [reflexivity|].
  do 9 (destruct k as [|k]; [reflexivity|]). lia.
Qed.

Lemma all_digits_digits_to fuel : forall n acc,
  0 <= n -> all_chars is_digit acc = true ->
  all_chars is_digit (digits_to fuel n acc) = true.
Proof.
  assert (step : forall n acc, 0 <= n -> all_chars is_digit acc = true ->
            all_chars is_digit (String (digit_char (n mod 10)) acc) = true).
  { intros n acc Hn Hacc. cbn [all_chars].
    rewrite is_digit_digit_char, Hacc; [reflexivity|].
    apply Z.mod_pos_bound; lia. }
  induction fuel as [|f IH]; intros n acc Hn Hacc; cbn [digits_to].
  - now apply step.
  - destruct (n <? 10); [now apply step|].
    apply IH; [apply Z.div_pos; lia | now apply step].
Qed.

(** With fuel for the binary length of n, a number of at least 10^k has
    more than k digits. *)
Lemma length_digits_to fuel : forall n acc (k : nat),
  n < 2 ^ (Z.of_nat fuel + 1) -> 10 ^ Z.of_nat k <= n ->
  (k + 1 + length acc <= length (digits_to fuel n acc))%nat.
Proof.
  assert (small : forall n (k : nat), n < 10 -> 10 ^ Z.of_nat k <= n -> k = O).
  { intros n [|k] Hn Hk; [reflexivity|].
    assert (10 ^ 1 <= 10 ^ Z.of_nat (S k)) by (apply Z.pow_le_mono_r; lia).
    lia. }
  induction fuel as [|f IH]; intros n acc k Hlt Hge; cbn [digits_to].
  - change (2 ^ (Z.of_nat 0 + 1)) with 2 in Hlt.
    rewrite (small n k) by (assumption || lia). cbn [length]. lia.
  - destruct (Z.ltb_spec n 10) as [Hs|Hs].
    + rewrite (small n k) by assumption. cbn [length]. lia.
    + assert (Hdiv : n / 10 < 2 ^ (Z.of_nat f + 1)).
      { apply Z.div_lt_upper_bound; [lia|].
        replace (Z.of_nat (S f) + 1) with (Z.succ (Z.of_nat f + 1)) in Hlt by lia.
        rewrite Z.pow_succ_r in Hlt by lia. lia. }
      destruct k as [|k].
      * assert (H1 : 10 ^ Z.of_nat 0 <= n / 10).
        { change (10 ^ Z.of_nat 0) with 1. apply Z.div_le_lower_bound; lia. }
        pose proof (IH (n / 10) (String (digit_char (n mod 10)) acc) O Hdiv H1) as L.
        cbn [length] in L. lia.
      * assert (Hk : 10 ^ Z.of_nat k <= n / 10).
        { apply Z.div_le_lower_bound; [lia|].
          replace (Z.of_nat (S k)) with (Z.succ (Z.of_nat k)) in Hge by lia.
          rewrite Z.pow_succ_r in Hge by lia. lia. }
        pose proof (IH (n / 10) (String (digit_char (n mod 10)) acc) k Hdiv Hk) as L.
        cbn [length] in L. lia.
Qed.

Lemma nat_digits_all_digits n : 0 <= n -> all_chars is_digit (nat_digits n) = true.
Proof. intros H. now apply all_digits_digits_to. Qed.

Lemma nat_digits_length n (k : nat) :
  10 ^ Z.of_nat k <= n -> (k + 1 <= length (nat_digits n))%nat.
Proof.
  intros H. assert (0 < n) by (pose proof (Z.pow_pos_nonneg 10 (Z.of_nat k)); lia).
  pose proof (length_digits_to (Z.to_nat (Z.log2 n)) n EmptyString k) as L.
  cbn [length] in L. unfold nat_digits. rewrite Nat.add_0_r in L. apply L; [|assumption].
  rewrite Z2Nat.id by apply Z.log2_nonneg.
  replace (Z.log2 n + 1) with (Z.succ (Z.log2 n)) by lia.
  apply Z.log2_spec. assumption.
Qed.

Lemma upper_digit36 d :
  (d < 36)%nat ->
  (fun c => is_upper c || is_digit c) (upper_char (digit36_char d)) = true.
Proof.
  intros H.
  do 36 (destruct d as [|d]; [reflexivity|]). lia.
Qed.

Lemma all_chars_toUpperCase_digits36 ds :
  Forall (fun d => (d < 36)%nat) ds ->
  forall k,
  all_chars (fun c => is_upper c || is_digit c)
    (toUpperCase (take k (digits36 ds))) = true.
Proof.
  induction 1 as [|d ds Hd Hds IH]; intros [|k]; simpl; try reflexivity.
  rewrite IH. pose proof (upper_digit36 d Hd) as U. simpl in U. now rewrite U.
Qed.

Lemma length_toUpperCase s : length (toUpperCase s) = length s.
Proof. induction s; simpl; congruence. Qed.

End JsFacts.

(* ------------------------------------------------------------------ *)
(** ** Claim numbers *)

Example toString_samples :
  Js.toString 0 = "0" /\ Js.toString (-5) = "-5"
  /\ Js.toString 99999 = "99999"
  /\ Js.toString 1730500000123 = "1730500000123".
Proof. repeat split. Qed.

Example generateClaimNumber_sample :
  Utils.generateClaimNumber 1730500000123 [10; 3; 35; 0; 7]%nat = "CLM000123A3Z0".
Proof. reflexivity. Qed.

(** C9, as amended.  For a clock reading of at least 100000 (a timestamp
    of six or more digits; time values stay far below 1e21, where the
    decimal rendering would switch to an exponent) and any outcome of the
    random source, the generated claim number passes isValidClaimNumber,
    also when the random suffix is shorter than four characters or
    empty. *)
Theorem generateClaimNumber_valid (now : Z) (rnd : list nat) :
  100000 <= now < 1000000000000000000000 ->
  Forall (fun d => (d < 36)%nat) rnd ->
  Utils.isValidClaimNumber (Utils.generateClaimNumber now rnd) = true.
Proof.
  intros [Hnow _] Hrnd.
  unfold Utils.isValidClaimNumber, Utils.generateClaimNumber, Js.toString.
  destruct (Z.ltb_spec now 0) as [Hneg|_]; [lia|].
  change ("CLM" ++ ?x) with (String "C" (String "L" (String "M" x))).
  cbn [Js.test_CLM].
  assert (Hlen : (6 <= length (Js.nat_digits now))%nat).
  { apply (nat_digits_length now 5). change (10 ^ Z.of_nat 5) with 100000. lia. }
  rewrite length_app, length_slice_last by exact Hlen.
  rewrite all_chars_app. cbn [Nat.leb Nat.add].
  assert (Hts : Js.all_chars (fun c => Js.is_upper c || Js.is_digit c)
                  (Js.slice_last 6 (Js.nat_digits now)) = true).
  { apply all_chars_weaken with (p := Js.is_digit).
    - intros c Hc. rewrite Hc. apply orb_true_r.
    - apply all_chars_drop, nat_digits_all_digits. lia. }
  rewrite Hts. cbn [andb].
  destruct Hrnd as [|d ds Hd Hds]; [reflexivity|].
  unfold Js.substr, Js.fraction_toString36.
  change (Js.drop 2 ("0." ++ ?x)) with x.
  apply all_chars_toUpperCase_digits36. now constructor.
Qed.

Lemma generateClaimNumber_valid_witness :
  Utils.isValidClaimNumber
    (Utils.generateClaimNumber 1730500000123 [10; 3; 35; 0; 7]%nat) = true.
Proof.
  apply generateClaimNumber_valid; [lia | repeat (constructor; [lia|]); constructor].
Defined.

(** C9, as stated, fails: 99999 ms after the epoch with a random draw of
    0 the generated number is "CLM99999", five characters after CLM. *)
Lemma generateClaimNumber_early_clock_invalid :
  Utils.generateClaimNumber 99999 [] = "CLM99999"
  /\ Utils.isValidClaimNumber (Utils.generateClaimNumber 99999 []) = false.
Proof. split; reflexivity. Qed.

(* ------------------------------------------------------------------ *)
(** ** Numbers *)

Section NumberFacts.
Import Js.
Local Open Scope Q_scope.

Lemma Qltb_true x y : Qltb x y = true <-> x < y.
Proof.
  unfold Qltb. rewrite negb_true_iff. split.
  - intros H. apply Qnot_le_lt. intros L.
    apply Qle_bool_iff in L. congruence.
  - intros H. destruct (Qle_bool y x) eqn:E; [|reflexivity].
    apply Qle_bool_iff in E. exfalso. now apply (Qlt_not_le x y).
Qed.

Lemma Qltb_false x y : Qltb x y = false <-> y <= x.
Proof.
  unfold Qltb. rewrite negb_false_iff. apply Qle_bool_iff.
Qed.

Lemma Qfloor_unique y (n : Z) :
  inject_Z n <= y -> y < inject_Z (n + 1) -> Qfloor y = n.
Proof.
  intros Hlo Hhi.
  pose proof (Qfloor_le y) as Flo. pose proof (Qlt_floor y) as Fhi.
  assert (n < Qfloor y + 1)%Z by (rewrite Zlt_Qlt; lra).
  assert (Qfloor y < n + 1)%Z by (rewrite Zlt_Qlt; lra).
  lia.
Qed.



Lemma hundredths_inject (k : Z) : (k # 100) * 100 == inject_Z k.
Proof. unfold Qeq, Qmult, inject_Z. simpl. lia. Qed.

Lemma Math_round_inject (k : Z) : Math_round (inject_Z k) = k.
Proof.
  unfold Math_round. apply Qfloor_unique.
  - lra.
  - rewrite inject_Z_plus. change (inject_Z 1) with 1. lra.
Qed.

End NumberFacts.

(* ------------------------------------------------------------------ *)
(** ** Confidence display *)

Example formatConfidence_sample : Utils.formatConfidence (79 # 100) = "79%".
Proof. reflexivity. Qed.



(* ------------------------------------------------------------------ *)
(** ** The claim amount *)

Section ClaimAmount.
Import Js Validation.
Local Open Scope Q_scope.

Lemma below_toFixed_switch a : 0 < a -> a <= 1000000 -> Qle_bool (10 ^ 21) (Qabs a) = false.
Proof.
  intros Hpos Hmax. destruct (Qle_bool (10 ^ 21) (Qabs a)) eqn:E; [|reflexivity].
  apply Qle_bool_iff in E. rewrite Qabs_pos in E by lra.
  assert (B : 10 ^ 21 == 1000000000000000000000) by reflexivity.
  rewrite B in E. lra.
Qed.

Lemma toFixed2_hundredths a (k : Z) : 0 <= a -> a == k # 100 -> toFixed2 a = k.
Proof.
  intros Hpos Hk. unfold toFixed2.
  assert (F : Qltb a 0 = false) by now apply Qltb_false.
  rewrite F. apply Qfloor_unique.
  - pose proof (hundredths_inject k). rewrite Hk. lra.
  - pose proof (hundredths_inject k). rewrite Hk, inject_Z_plus.
    change (inject_Z 1) with 1. lra.
Qed.

Lemma hundredths_at_least_one a (k : Z) : 0 < a -> a == k # 100 -> 1 # 100 <= a.
Proof.
  intros Hpos Hk. rewrite Hk in *.
  unfold Qlt in Hpos. unfold Qle. simpl in *. lia.
Qed.

(** The four checks on claim_amount together. *)
Lemma claim_amount_ok_iff a :
  claim_amount_ok a = true
  <-> 0 < a /\ a <= 1000000 /\ exists k : Z, a == k # 100.
Proof.
  unfold claim_amount_ok, two_decimal_places, Number_toFixed2.
  rewrite !andb_true_iff, Qltb_true, !Qle_bool_iff, Qeq_bool_iff. split.
  - intros [[[Hpos Hmin] Hmax] Hdec]. repeat split; try assumption.
    rewrite below_toFixed_switch in Hdec by assumption.
    exists (toFixed2 a). now symmetry.
  - intros (Hpos & Hmax & k & Hk). repeat split; try assumption.
    + now apply (hundredths_at_least_one a k).
    + rewrite below_toFixed_switch by assumption.
      rewrite (toFixed2_hundredths a k) by (lra || assumption).
      now symmetry.
Qed.

End ClaimAmount.

Example claim_amount_samples :
  Validation.claim_amount_ok (1 # 100) = true
  /\ Validation.claim_amount_ok 1000000 = true
  /\ Validation.claim_amount_ok (12555 # 1000) = false
  /\ Validation.claim_amount_ok 0 = false
  /\ Validation.claim_amount_ok (100000001 # 100) = false.
Proof. repeat split. Qed.

(** C3, as amended.  With the other fields valid, the creation schema
    accepts a claim_amount if and only if it is positive, at most
    1,000,000, and has at most 2 fractional digits (a whole number of
    hundredths). *)
Theorem claim_amount_accepted_iff
    (parseDate : string -> option Z) (now : Z)
    (d : Validation.ClaimFormData) (amount : Q) :
  Validation.claimValidationSchema parseDate now d = true ->
  (Validation.claimValidationSchema parseDate now
     (Validation.set_claim_amount d amount) = true
   <-> (0 < amount /\ amount <= 1000000
        /\ exists k : Z, amount == k # 100)%Q).
Proof.
  intros Hd. rewrite <- claim_amount_ok_iff.
  unfold Validation.claimValidationSchema in *. cbn [Validation.set_claim_amount
    Validation.cf_claim_number Validation.cf_policy_number
    Validation.cf_patient_name Validation.cf_date_of_service
    Validation.cf_claim_amount Validation.cf_claim_type
    Validation.cf_provider_name Validation.cf_diagnosis_codes
    Validation.cf_procedure_codes].
  rewrite !andb_true_iff in *. tauto.
Qed.

Lemma claim_amount_accepted_iff_witness :
  Validation.claimValidationSchema Sample.parseDate Sample.now
    (Validation.set_claim_amount Sample.form (1999 # 100)) = true
  <-> (0 < 1999 # 100 /\ 1999 # 100 <= 1000000
       /\ exists k : Z, 1999 # 100 == k # 100)%Q.
Proof.
  apply (claim_amount_accepted_iff Sample.parseDate Sample.now Sample.form).
  reflexivity.
Defined.

(** C3, as stated, fails: 2,000,000.00 is positive with no more than 2
    fractional digits, and the schema rejects it on an otherwise valid
    form. *)
Lemma claim_amount_above_maximum_rejected :
  Stated.positive_two_decimals 2000000
  /\ Validation.claimValidationSchema Sample.parseDate Sample.now Sample.form = true
  /\ Validation.claimValidationSchema Sample.parseDate Sample.now
       (Validation.set_claim_amount Sample.form 2000000) = false.
Proof.
  repeat split.
  exists 200000000%Z. reflexivity.
Qed.

(* ------------------------------------------------------------------ *)
(** ** The date of service *)

(** C10.  A date_of_service that parses to an instant strictly later than
    the clock reading makes the creation schema reject the input; one that
    parses to an instant at or before the clock reading passes both date
    refinements, and the whole field check when it is not empty. *)
Theorem date_of_service_not_in_future
    (parseDate : string -> option Z) (now : Z)
    (d : Validation.ClaimFormData) (date : string) (t : Z) :
  parseDate date = Some t ->
  (now < t ->
     Validation.claimValidationSchema parseDate now
       (Validation.set_date_of_service d date) = false)
  /\ (t <= now ->
        Validation.date_parses parseDate date = true
        /\ Validation.date_not_in_future parseDate now date = true
        /\ (date <> "" -> Validation.date_of_service_ok parseDate now date = true)).
Proof.
  intros Hparse. split.
  - intros Hlate. unfold Validation.claimValidationSchema.
    cbn [Validation.set_date_of_service Validation.cf_date_of_service].
    assert (F : Validation.date_of_service_ok parseDate now date = false).
    { unfold Validation.date_of_service_ok, Validation.date_not_in_future.
      rewrite Hparse. destruct (Z.leb_spec t now); [lia|].
      now rewrite andb_false_r. }
    rewrite F. now rewrite !andb_false_r.
  - intros Hpast.
    assert (P : Validation.date_parses parseDate date = true)
      by (unfold Validation.date_parses; now rewrite Hparse).
    assert (N : Validation.date_not_in_future parseDate now date = true).
    { unfold Validation.date_not_in_future. rewrite Hparse.
      now apply Z.leb_le. }
    repeat split; try assumption.
    intros Hne. unfold Validation.date_of_service_ok. rewrite P, N.
    destruct date as [|c r]; [congruence|reflexivity].
Qed.

Lemma date_of_service_not_in_future_witness :
  (Sample.now < 1893456000000 ->
     Validation.claimValidationSchema Sample.parseDate Sample.now
       (Validation.set_date_of_service Sample.form "2030-01-01") = false)
  /\ (1893456000000 <= Sample.now ->
        Validation.date_parses Sample.parseDate "2030-01-01" = true
        /\ Validation.date_not_in_future Sample.parseDate Sample.now "2030-01-01" = true
        /\ ("2030-01-01" <> "" ->
            Validation.date_of_service_ok Sample.parseDate Sample.now "2030-01-01" = true)).
Proof.
  apply (date_of_service_not_in_future Sample.parseDate Sample.now Sample.form
           "2030-01-01" 1893456000000).
  reflexivity.
Defined.

Example date_of_service_samples :
  Validation.date_of_service_ok Sample.parseDate Sample.now "2024-01-15" = true
  /\ Validation.date_of_service_ok Sample.parseDate Sample.now "2030-01-01" = false
  /\ Validation.date_of_service_ok Sample.parseDate Sample.now "15/01/2024" = false.
Proof. repeat split. Qed.

(* ------------------------------------------------------------------ *)
(** ** The list filters *)

Section Filters.
Import Types Validation.

Lemma nativeEnum_ClaimType_iff v :
  nativeEnum_ClaimType v = true <-> exists t : ClaimType, v = RStr (ClaimType_value t).
Proof.
  split.
  - destruct v as [| b | x | s]; try discriminate. cbn [nativeEnum_ClaimType].
    intros H. apply existsb_exists in H. destruct H as (t & _ & E).
    apply String.eqb_eq in E. exists t. now subst.
  - intros [t ->]. destruct t; reflexivity.
Qed.

Lemma lifecycle_status_not_a_ClaimType (s : ClaimStatus) :
  nativeEnum_ClaimType (RStr (ClaimStatus_value s)) = false.
Proof. destruct s; reflexivity. Qed.

Lemma claimFiltersSchema_status parseDate d v :
  claimFiltersSchema parseDate (set_status d v)
  = claimFiltersSchema parseDate (set_status d None)
    && optional nativeEnum_ClaimType v.
Proof.
  unfold claimFiltersSchema, date_range_ok.
  cbn [set_status fl_search fl_status fl_claim_type fl_date_from fl_date_to
       fl_skip fl_limit optional].
  repeat match goal with |- context [optional ?f ?x] =>
    let b := fresh "b" in set (b := optional f x) end.
  set (r := match fl_date_from d with Some _ => _ | None => _ end).
  destruct b, b0, b1, b2, b3, b4, b5, r; reflexivity.
Qed.

End Filters.

(** C8.  With the other filters absent or valid, claimFiltersSchema
    accepts a status value if and only if it is one of the ClaimType
    strings MEDICAL, DENTAL, VISION, PHARMACY; every lifecycle status
    (RECEIVED, OCR_PROCESSING, ..., SETTLED, REJECTED) is rejected as a
    status filter. *)
Theorem status_filter_is_checked_as_ClaimType
    (parseDate : string -> option Z)
    (d : Validation.ClaimFiltersData) (v : Types.raw) :
  Validation.claimFiltersSchema parseDate (Validation.set_status d None) = true ->
  (Validation.claimFiltersSchema parseDate (Validation.set_status d (Some v)) = true
   <-> v = Types.RStr "MEDICAL" \/ v = Types.RStr "DENTAL"
       \/ v = Types.RStr "VISION" \/ v = Types.RStr "PHARMACY")
  /\ (forall s : Types.ClaimStatus,
        Validation.claimFiltersSchema parseDate
          (Validation.set_status d (Some (Types.RStr (Types.ClaimStatus_value s))))
        = false).
Proof.
  intros Hd. split.
  - rewrite claimFiltersSchema_status, Hd. cbn [andb Validation.optional].
    rewrite nativeEnum_ClaimType_iff. split.
    + intros [[] ->]; cbn; tauto.
    + intros [-> | [-> | [-> | ->]]];
        [exists Types.MEDICAL | exists Types.DENTAL
        | exists Types.VISION | exists Types.PHARMACY]; reflexivity.
  - intros s. rewrite claimFiltersSchema_status. cbn [Validation.optional].
    rewrite lifecycle_status_not_a_ClaimType. apply andb_false_r.
Qed.

Lemma status_filter_is_checked_as_ClaimType_witness :
  (Validation.claimFiltersSchema Sample.parseDate
     (Validation.set_status Sample.no_filters (Some (Types.RStr "DENTAL"))) = true
   <-> Types.RStr "DENTAL" = Types.RStr "MEDICAL"
       \/ Types.RStr "DENTAL" = Types.RStr "DENTAL"
       \/ Types.RStr "DENTAL" = Types.RStr "VISION"
       \/ Types.RStr "DENTAL" = Types.RStr "PHARMACY")
  /\ (forall s : Types.ClaimStatus,
        Validation.claimFiltersSchema Sample.parseDate
          (Validation.set_status Sample.no_filters
             (Some (Types.RStr (Types.ClaimStatus_value s))))
        = false).
Proof.
  apply (status_filter_is_checked_as_ClaimType Sample.parseDate
           Sample.no_filters (Types.RStr "DENTAL")).
  reflexivity.
Defined.

(* ------------------------------------------------------------------ *)
(** ** Request retry *)

Section RetryFacts.
Import Api.
Context {T : Type}.
Variable requestFn : nat -> Result T.
Variables maxRetries delay : Z.

Lemma transient_not_client e : is_5xx e -> isClientError e = false.
Proof.
  intros (st & -> & Hst). cbn [isClientError].
  destruct (Z.ltb_spec st 500); [lia|]. apply andb_false_r.
Qed.


Hypothesis always_transient : forall k, exists e, requestFn k = Err e /\ is_5xx e.

(** The loop under a request that always fails with a 5xx error: every
    remaining iteration calls it, and the error thrown at the end is the
    one of the last call. *)
Lemma attempts_exhaust : forall remaining attempt lastError w,
  attempts requestFn maxRetries delay remaining attempt lastError w
  = (Threw match remaining with
           | O => lastError
           | S k => error_of (requestFn (calls w + k))
           end,
     {| calls := calls w + remaining;
        log := log w ++ exhausted_log delay maxRetries remaining attempt |}).
Proof.
  induction remaining as [|k IH]; intros attempt lastError [c l].
  - cbn. now rewrite Nat.add_0_r, app_nil_r.
  - cbn [attempts]. unfold bind at 1. unfold invoke at 1. cbn [calls log].
    destruct (always_transient c) as (e & He & H5). rewrite He.
    rewrite (transient_not_client e H5).
    unfold bind at 1.
    assert (IH' := fun w' => IH (attempt + 1) (Some e) w').
    destruct (attempt <? maxRetries) eqn:Hlt.
    + unfold sleep at 1. cbn [calls log]. rewrite IH'. cbn [calls log exhausted_log].
      rewrite Hlt. rewrite <- !app_assoc. cbn [app].
      replace (S c + k)%nat with (c + S k)%nat by lia.
      f_equal. f_equal. destruct k as [|k'].
      * now rewrite Nat.add_0_r, He.
      * now replace (S c + k')%nat with (c + S k')%nat by lia.
    + unfold ret at 1. rewrite IH'. cbn [calls log exhausted_log].
      rewrite Hlt. rewrite <- !app_assoc. cbn [app].
      replace (S c + k)%nat with (c + S k)%nat by lia.
      f_equal. f_equal. destruct k as [|k'].
      * now rewrite Nat.add_0_r, He.
      * now replace (S c + k')%nat with (c + S k')%nat by lia.
Qed.

End RetryFacts.

Section BackoffFacts.
Import Api.

Lemma invocations_exhausted delay maxRetries : forall n attempt,
  invocations (exhausted_log delay maxRetries n attempt) = n.
Proof.
  unfold invocations. induction n as [|k IH]; intros attempt; [reflexivity|].
  cbn [exhausted_log filter List.length]. f_equal.
  destruct (attempt <? maxRetries); cbn [app filter]; apply IH.
Qed.

Lemma waits_exhausted delay maxRetries : forall n attempt,
  attempt + Z.of_nat n = maxRetries + 1 ->
  waits (exhausted_log delay maxRetries n attempt)
  = backoffs delay attempt (n - 1).
Proof.
  induction n as [|k IH]; intros attempt Hlast; [reflexivity|].
  cbn [exhausted_log waits]. destruct (Z.ltb_spec attempt maxRetries) as [Hlt|Hge].
  - destruct k as [|k']; [lia|].
    cbn [app waits]. rewrite IH by lia.
    replace (S (S k') - 1)%nat with (S k') by lia.
    replace (S k' - 1)%nat with k' by lia. reflexivity.
  - assert (k = O) by lia. subst k. reflexivity.
Qed.

Lemma nth_backoffs delay : forall n a (i : nat),
  (i < n)%nat ->
  nth_error (backoffs delay a n) i = Some (delay * 2 ^ (a - 1 + Z.of_nat i)).
Proof.
  induction n as [|k IH]; intros a i Hi; [lia|].
  destruct i as [|i]; cbn [backoffs nth_error].
  - now rewrite Z.add_0_r.
  - rewrite IH by lia. do 3 f_equal. lia.
Qed.

Lemma length_backoffs delay : forall n a, List.length (backoffs delay a n) = n.
Proof. induction n as [|k IH]; intros a; cbn; [reflexivity | now rewrite IH]. Qed.

End BackoffFacts.

Example retryRequest_default_run :
  Api.retryRequest Sample.always_503 3 1000 Api.start
  = (Api.Threw (Some (Api.AxiosError (Some 503))),
     {| Api.calls := 3;
        Api.log := [Api.Invoke; Api.Wait 1000; Api.Invoke; Api.Wait 2000; Api.Invoke] |}).
Proof. reflexivity. Qed.

(** C5.  When every call of the request function fails with a 5xx error,
    retryRequest (for a maximum of at least one attempt) calls it exactly
    maxRetries times, waits delay * 2^(attempt-1) after each attempt but
    the last, and then throws the error of the last call. *)
Theorem retryRequest_retry_ceiling
    {T : Type} (requestFn : nat -> Api.Result T) (maxRetries delay : Z) :
  1 <= maxRetries ->
  (forall k, exists e, requestFn k = Api.Err e /\ Api.is_5xx e) ->
  let run := Api.retryRequest requestFn maxRetries delay Api.start in
  let w := snd run in
  Z.of_nat (Api.calls w) = maxRetries
  /\ Z.of_nat (Api.invocations (Api.log w)) = maxRetries
  /\ Api.log w = Api.exhausted_log delay maxRetries (Z.to_nat maxRetries) 1
  /\ Z.of_nat (List.length (Api.waits (Api.log w))) = maxRetries - 1
  /\ (forall attempt, 1 <= attempt < maxRetries ->
        nth_error (Api.waits (Api.log w)) (Z.to_nat (attempt - 1))
        = Some (delay * 2 ^ (attempt - 1)))
  /\ exists lastError,
       requestFn (Z.to_nat (maxRetries - 1)) = Api.Err lastError
       /\ fst run = Api.Threw (Some lastError).
Proof.
  intros Hmax Hfail run w. subst w run. unfold Api.retryRequest.
  rewrite (attempts_exhaust requestFn maxRetries delay Hfail).
  cbn [fst snd Api.calls Api.log Api.start app Nat.add].
  rewrite invocations_exhausted, waits_exhausted by lia.
  rewrite length_backoffs.
  repeat split; try lia.
  - intros attempt Ha. rewrite nth_backoffs by lia.
    do 3 f_equal. lia.
  - destruct (Hfail (Z.to_nat (maxRetries - 1))) as (e & He & _).
    exists e. split; [exact He|].
    destruct (Z.to_nat maxRetries) as [|k] eqn:Hk; [lia|].
    replace (Z.to_nat (maxRetries - 1)) with k in He by lia.
    now rewrite He.
Qed.

(** With a maximum below one the loop body never runs: nothing is
    called, and the unassigned lastError is thrown. *)
Lemma retryRequest_no_attempt
    {T : Type} (requestFn : nat -> Api.Result T) (maxRetries delay : Z) :
  maxRetries <= 0 ->
  Api.retryRequest requestFn maxRetries delay Api.start = (Api.Threw None, Api.start).
Proof.
  intros H. unfold Api.retryRequest.
  replace (Z.to_nat maxRetries) with O by lia. reflexivity.
Qed.

Lemma retryRequest_retry_ceiling_witness :
  let run := Api.retryRequest Sample.always_503 3 1000 Api.start in
  let w := snd run in
  Z.of_nat (Api.calls w) = 3
  /\ Z.of_nat (Api.invocations (Api.log w)) = 3
  /\ Api.log w = Api.exhausted_log 1000 3 (Z.to_nat 3) 1
  /\ Z.of_nat (List.length (Api.waits (Api.log w))) = 3 - 1
  /\ (forall attempt, 1 <= attempt < 3 ->
        nth_error (Api.waits (Api.log w)) (Z.to_nat (attempt - 1))
        = Some (1000 * 2 ^ (attempt - 1)))
  /\ exists lastError,
       Sample.always_503 (Z.to_nat (3 - 1)) = Api.Err lastError
       /\ fst run = Api.Threw (Some lastError).
Proof.
  apply (retryRequest_retry_ceiling Sample.always_503 3 1000).
  - lia.
  - intros k. exists (Api.AxiosError (Some 503)). split; [reflexivity|].
    exists 503. split; [reflexivity|lia].
Defined.



(* ------------------------------------------------------------------ *)
(** ** Updating a claim *)

Section UpdateFacts.
Import Js Validation.



End UpdateFacts.

Example edit_form_samples :
  EditClaim.editClaimSchema Sample.parseDate (EditClaim.resetValues Sample.stored) = true
  /\ Types.cu_date_of_service (EditClaim.resetValues Sample.stored) = Some "2024-01-15"
  /\ Validation.updateClaimSchema Sample.parseDate Sample.now Sample.uuid_shape
       Sample.renumbering = true.
Proof. repeat split. Qed.



(* ------------------------------------------------------------------ *)
(** ** Lifecycle *)

Section LifecycleFacts.
Import Js Types Lifecycle.

Lemma route_review thr c m :
  route thr c m = HUMAN_REVIEW <-> (c < thr)%Q \/ m = true.
Proof.
  unfold route. rewrite <- Qltb_true, <- orb_true_iff.
  destruct (Qltb c thr || m); split; congruence.
Qed.

Lemma route_consent thr c m :
  route thr c m = CONSENT_VERIFIED <-> ~ ((c < thr)%Q \/ m = true).
Proof.
  rewrite <- route_review. unfold route.
  destruct (Qltb c thr || m); split; congruence.
Qed.

Lemma green_iff_at_least_threshold c :
  Utils.getConfidenceColor c = "text-green-600"
  <-> (default_review_threshold <= c)%Q.
Proof.
  unfold Utils.getConfidenceColor, default_review_threshold.
  destruct (Qle_bool (8 # 10) c) eqn:E.
  - apply Qle_bool_iff in E. split; [intros _; lra | reflexivity].
  - split.
    + destruct (Qle_bool (6 # 10) c); discriminate.
    + intros H. assert (L : (8 # 10 <= c)%Q) by lra.
      apply Qle_bool_iff in L. congruence.
Qed.

End LifecycleFacts.

(** C1.  A claim in DQ_VALIDATED is routed to HUMAN_REVIEW if and only if
    its overall confidence is strictly below the review threshold or a
    mandatory-review rule fires, and to CONSENT_VERIFIED otherwise; at the
    default threshold 0.80 a confidence of 0.79 goes to HUMAN_REVIEW and
    0.80 exactly to CONSENT_VERIFIED, the boundary at which
    getConfidenceColor turns green. *)
Theorem confidence_routing
    (review_threshold overall_confidence : Q) (mandatory_review : bool)
    (claim : Types.Claim) :
  Types.status claim = Types.DQ_VALIDATED ->
  let e := Lifecycle.ConfidenceRouting overall_confidence mandatory_review in
  let after := fst (Lifecycle.Advance review_threshold claim e) in
  (Types.status after = Types.HUMAN_REVIEW
   <-> (overall_confidence < review_threshold)%Q \/ mandatory_review = true)
  /\ (Types.status after = Types.CONSENT_VERIFIED
      <-> ~ ((overall_confidence < review_threshold)%Q \/ mandatory_review = true))
  /\ Lifecycle.route Lifecycle.default_review_threshold (79 # 100) false
     = Types.HUMAN_REVIEW
  /\ Lifecycle.route Lifecycle.default_review_threshold (80 # 100) false
     = Types.CONSENT_VERIFIED
  /\ (Utils.getConfidenceColor overall_confidence = "text-green-600"
      <-> Lifecycle.route Lifecycle.default_review_threshold overall_confidence false
          = Types.CONSENT_VERIFIED).
Proof.
  intros Hs e after. subst e after. unfold Lifecycle.Advance. rewrite Hs.
  cbn [Lifecycle.next fst Lifecycle.with_status Types.status].
  repeat split; try (apply route_review; assumption);
    try (apply route_consent; assumption).
  - intros G. apply route_consent. apply green_iff_at_least_threshold in G.
    intros [L | F]; [lra | discriminate].
  - intros R. apply green_iff_at_least_threshold.
    apply route_consent in R. apply Qnot_lt_le. intros L. apply R. now left.
Qed.

Lemma confidence_routing_witness :
  let e := Lifecycle.ConfidenceRouting (79 # 100) false in
  let claim := Lifecycle.with_status Sample.stored Types.DQ_VALIDATED in
  let after := fst (Lifecycle.Advance Lifecycle.default_review_threshold claim e) in
  Types.status after = Types.HUMAN_REVIEW
  <-> (79 # 100 < Lifecycle.default_review_threshold)%Q \/ false = true.
Proof.
  exact (proj1 (confidence_routing Lifecycle.default_review_threshold (79 # 100) false
                  (Lifecycle.with_status Sample.stored Types.DQ_VALIDATED) eq_refl)).
Defined.

(** C2.  SETTLED and REJECTED are terminal: an event applied to a claim
    in either state leaves the stored claim, and so its status, unchanged,
    and the attempt fails with InvalidTransition carrying the current state
    and the event. *)
Theorem terminal_states_reject_every_event
    (review_threshold : Q) (claim : Types.Claim) (e : Lifecycle.Event) :
  Types.status claim = Types.SETTLED \/ Types.status claim = Types.REJECTED ->
  Lifecycle.Advance review_threshold claim e
  = (claim, inl (Lifecycle.InvalidTransition (Types.status claim) e)).
Proof.
  intros H. unfold Lifecycle.Advance.
  assert (N : Lifecycle.next review_threshold (Types.status claim) e = None).
  { destruct H as [-> | ->]; destruct e as [| c | | c m | [|] | | | |]; reflexivity. }
  now rewrite N.
Qed.

Lemma terminal_states_reject_every_event_witness :
  let claim := Lifecycle.with_status Sample.stored Types.SETTLED in
  Lifecycle.Advance Lifecycle.default_review_threshold claim Lifecycle.Rejection
  = (claim, inl (Lifecycle.InvalidTransition Types.SETTLED Lifecycle.Rejection)).
Proof.
  apply (terminal_states_reject_every_event Lifecycle.default_review_threshold
           (Lifecycle.with_status Sample.stored Types.SETTLED) Lifecycle.Rejection).
  left. reflexivity.
Defined.

(* ================================================================== *)
(** * Further properties of the utilities *)

(* ------------------------------------------------------------------ *)
(** ** Text helpers *)

Section TextFacts.
Import Js Text.

Lemma length_take k s : length (take k s) = Nat.min k (length s).
Proof.
  revert s; induction k as [|k IH]; intros [|c s]; cbn [take length]; auto.
  rewrite IH. reflexivity.
Qed.

Lemma take_app_exact a b : take (length a) (a ++ b) = a.
Proof.
  induction a as [|c a IH]; cbn [length append take]; [now destruct b|].
  now rewrite IH.
Qed.

Lemma split_not_nil c s : split c s <> [].
Proof.
  destruct s as [|x r]; cbn [split]; [discriminate|].
  destruct (Ascii.eqb x c); [discriminate|].
  destruct (split c r); discriminate.
Qed.

Lemma split_pieces_free c s : Forall (fun piece => no_char c piece = true) (split c s).
Proof.
  induction s as [|x r IH]; cbn [split].
  - repeat constructor.
  - destruct (Ascii.eqb x c) eqn:E.
    + constructor; [reflexivity | exact IH].
    + destruct (split c r) as [|h t].
      * repeat constructor. unfold no_char. cbn [all_chars]. now rewrite E.
      * inversion IH as [|? ? Hh Ht]; subst. constructor; [|exact Ht].
        unfold no_char in *. cbn [all_chars]. now rewrite E, Hh.
Qed.

Lemma split_free c s : no_char c s = true -> split c s = [s].
Proof.
  unfold no_char. induction s as [|x r IH]; cbn [split all_chars]; [reflexivity|].
  intros H. apply andb_prop in H. destruct H as [Hx Hr].
  apply negb_true_iff in Hx. rewrite Hx, (IH Hr). reflexivity.
Qed.

Lemma split_app_two_pieces c a b :
  exists h h' t, split c (a ++ String c b) = h :: h' :: t.
Proof.
  induction a as [|x a (h & h' & t & IH)]; cbn [append split].
  - rewrite Ascii.eqb_refl. destruct (split c b) as [|p q] eqn:E;
      [now apply split_not_nil in E|]. now exists EmptyString, p, q.
  - rewrite IH. destruct (Ascii.eqb x c).
    + now exists EmptyString, h, (h' :: t).
    + now exists (String x h), h', t.
Qed.

Lemma last_split_app c a b d :
  last (split c (a ++ String c b)) d = last (split c b) d.
Proof.
  induction a as [|x a IH]; cbn [append split].
  - rewrite Ascii.eqb_refl. cbn [last].
    destruct (split c b) eqn:E; [now apply split_not_nil in E | reflexivity].
  - destruct (split_app_two_pieces c a b) as (h & h' & t & E).
    rewrite E in *. destruct (Ascii.eqb x c); exact IH.
Qed.

Lemma lower_char_idempotent c : lower_char (lower_char c) = lower_char c.
Proof. destruct c as [[] [] [] [] [] [] [] []]; reflexivity. Qed.

Lemma lower_char_dot c : Ascii.eqb (lower_char c) "." = Ascii.eqb c ".".
Proof. destruct c as [[] [] [] [] [] [] [] []]; reflexivity. Qed.

Lemma toLowerCase_idempotent s : toLowerCase (toLowerCase s) = toLowerCase s.
Proof.
  induction s as [|c s IH]; cbn [toLowerCase]; [reflexivity|].
  now rewrite lower_char_idempotent, IH.
Qed.

Lemma toLowerCase_no_dot s : no_char "." (toLowerCase s) = no_char "." s.
Proof.
  unfold no_char. induction s as [|c s IH]; cbn [toLowerCase all_chars]; [reflexivity|].
  now rewrite lower_char_dot, IH.
Qed.

Lemma last_Forall {A} (P : A -> Prop) (l : list A) d :
  l <> [] -> Forall P l -> P (last l d).
Proof.
  induction l as [|x l IH]; [congruence|]. intros _ F.
  inversion F as [|? ? Hx Hl]; subst. destruct l as [|y l]; [exact Hx|].
  apply IH; [discriminate | exact Hl].
Qed.

Lemma upper_char_not_lower c : is_lower (upper_char c) = false.
Proof. destruct c as [[] [] [] [] [] [] [] []]; reflexivity. Qed.

Lemma digit36_lower_or_digit d :
  (d < 36)%nat -> (fun c => is_digit c || is_lower c) (digit36_char d) = true.
Proof. intros H. do 36 (destruct d as [|d]; [reflexivity|]). lia. Qed.

Lemma length_digits36 ds : length (digits36 ds) = List.length ds.
Proof. induction ds as [|d ds IH]; cbn; congruence. Qed.

Lemma all_chars_digits36 ds :
  Forall (fun d => (d < 36)%nat) ds ->
  all_chars (fun c => is_digit c || is_lower c) (digits36 ds) = true.
Proof.
  induction 1 as [|d ds Hd _ IH]; cbn [digits36 all_chars]; [reflexivity|].
  pose proof (digit36_lower_or_digit d Hd) as D. cbn beta in D. now rewrite D, IH.
Qed.

End TextFacts.

Example truncateText_samples :
  Text.truncateText "Hello, world" 5 = "Hello..."
  /\ Text.truncateText "Hello" 5 = "Hello"
  /\ Text.truncateText "Hello!" 5 = "Hello..."
  /\ Text.truncateText "hello" (-2) = "hel...".
Proof. repeat split. Qed.

Lemma truncateText_short text maxLength :
  Z.of_nat (length text) <= maxLength -> Text.truncateText text maxLength = text.
Proof.
  intros H. unfold Text.truncateText.
  destruct (Z.leb_spec (Z.of_nat (length text)) maxLength); [reflexivity | lia].
Qed.

Lemma truncateText_long text maxLength :
  0 <= maxLength < Z.of_nat (length text) ->
  Text.truncateText text maxLength = Js.take (Z.to_nat maxLength) text ++ "...".
Proof.
  intros H. unfold Text.truncateText, Text.slice0.
  destruct (Z.leb_spec (Z.of_nat (length text)) maxLength); [lia|].
  destruct (Z.ltb_spec maxLength 0); [lia | reflexivity].
Qed.

(** X1.  For a non-negative maxLength, truncateText returns a text of at
    most maxLength characters unchanged, and otherwise its first maxLength
    characters followed by three dots: the result then has exactly
    maxLength + 3 characters, so it exceeds maxLength and can be longer
    than the text it shortens. *)
Theorem truncateText_length (text : string) (maxLength : Z) :
  0 <= maxLength ->
  (Z.of_nat (length text) <= maxLength -> Text.truncateText text maxLength = text)
  /\ (maxLength < Z.of_nat (length text) ->
      Text.truncateText text maxLength = Js.take (Z.to_nat maxLength) text ++ "..."
      /\ Z.of_nat (length (Text.truncateText text maxLength)) = maxLength + 3).
Proof.
  intros Hm. split; intros H.
  - now apply truncateText_short.
  - rewrite truncateText_long by lia. split; [reflexivity|].
    rewrite length_app, length_take. cbn [length]. lia.
Qed.

Lemma truncateText_length_witness :
  (Z.of_nat (length "Hello!") <= 5 -> Text.truncateText "Hello!" 5 = "Hello!")
  /\ (5 < Z.of_nat (length "Hello!") ->
      Text.truncateText "Hello!" 5 = Js.take (Z.to_nat 5) "Hello!" ++ "..."
      /\ Z.of_nat (length (Text.truncateText "Hello!" 5)) = 5 + 3).
Proof. apply (truncateText_length "Hello!" 5). lia. Defined.

(** X2.  For a non-negative maxLength truncateText is idempotent:
    truncating an already truncated text with the same maxLength changes
    nothing, although that text is longer than maxLength. *)
Theorem truncateText_idempotent (text : string) (maxLength : Z) :
  0 <= maxLength ->
  Text.truncateText (Text.truncateText text maxLength) maxLength
  = Text.truncateText text maxLength.
Proof.
  intros Hm. destruct (Z.le_gt_cases (Z.of_nat (length text)) maxLength) as [Hs|Hl].
  - now rewrite !(truncateText_short text maxLength Hs).
  - rewrite (truncateText_long text maxLength) by lia.
    assert (N : length (Js.take (Z.to_nat maxLength) text) = Z.to_nat maxLength).
    { rewrite length_take. lia. }
    rewrite truncateText_long by (rewrite length_app, N; cbn [length]; lia).
    f_equal. rewrite <- N at 1. apply take_app_exact.
Qed.

Lemma truncateText_idempotent_witness :
  Text.truncateText (Text.truncateText "Hello, world" 5) 5
  = Text.truncateText "Hello, world" 5.
Proof. apply truncateText_idempotent. lia. Defined.

Example getFileExtension_samples :
  Text.getFileExtension "scan.final.PDF" = "pdf"
  /\ Text.getFileExtension "Makefile" = "makefile"
  /\ Text.getFileExtension "archive." = ""
  /\ Text.getFileExtension "" = ""
  /\ Text.isPDFFile "pdf" = true
  /\ Text.isImageFile "photo.JPeG" = true.
Proof. repeat split. Qed.

(** X3.  getFileExtension returns the lower-cased text behind the last
    dot: for a name ending in a dot followed by a dot-free ext it is ext
    in lower case.  A file name without any dot is returned whole, in
    lower case, as its own extension. *)
Theorem getFileExtension_last_segment (name ext : string) :
  Text.no_char "." ext = true ->
  Text.getFileExtension (name ++ "." ++ ext) = Text.toLowerCase ext
  /\ Text.getFileExtension ext = Text.toLowerCase ext.
Proof.
  intros H. unfold Text.getFileExtension.
  change ("." ++ ext) with (String "." ext).
  rewrite last_split_app, (split_free "." ext H). split; reflexivity.
Qed.

Lemma getFileExtension_last_segment_witness :
  Text.getFileExtension ("scan.final" ++ "." ++ "PDF") = Text.toLowerCase "PDF"
  /\ Text.getFileExtension "PDF" = Text.toLowerCase "PDF".
Proof. apply getFileExtension_last_segment. reflexivity. Defined.

(** X4.  The extension getFileExtension returns never contains a dot, and
    asking for the extension of an extension returns it unchanged. *)
Theorem getFileExtension_dot_free (filename : string) :
  Text.no_char "." (Text.getFileExtension filename) = true
  /\ Text.getFileExtension (Text.getFileExtension filename)
     = Text.getFileExtension filename.
Proof.
  assert (F : Text.no_char "." (Text.getFileExtension filename) = true).
  { unfold Text.getFileExtension. rewrite toLowerCase_no_dot.
    apply (last_Forall (fun piece => Text.no_char "." piece = true)).
    - apply split_not_nil.
    - apply split_pieces_free. }
  split; [exact F|].
  unfold Text.getFileExtension at 1. rewrite (split_free _ _ F). cbn [last].
  unfold Text.getFileExtension. apply toLowerCase_idempotent.
Qed.

(** No file name is both an image and a PDF for isImageFile and
    isPDFFile. *)
Theorem image_and_pdf_exclusive (filename : string) :
  Text.isImageFile filename = true -> Text.isPDFFile filename = false.
Proof.
  unfold Text.isImageFile, Text.isPDFFile, Text.includes.
  intros H. apply existsb_exists in H. destruct H as (e & Hin & He).
  apply String.eqb_eq in He. rewrite He.
  cbn [In] in Hin. repeat (destruct Hin as [<- | Hin]; [reflexivity|]). contradiction.
Qed.

Lemma image_and_pdf_exclusive_witness : Text.isPDFFile "photo.JPeG" = false.
Proof. apply image_and_pdf_exclusive. reflexivity. Defined.

Example getInitials_samples :
  Text.getInitials "mary o'neil smith" = "MO"
  /\ Text.getInitials "cher" = "C"
  /\ Text.getInitials " ann" = "A"
  /\ Text.getInitials "" = "".
Proof. repeat split. Qed.

(** X5.  For a name in ASCII, getInitials returns at most two characters,
    none of them a lower-case letter. *)
Theorem getInitials_at_most_two (name : string) :
  Js.all_chars (Js.in_range 0 127) name = true ->
  (length (Text.getInitials name) <= 2)%nat
  /\ Js.all_chars (fun c => negb (Js.is_lower c)) (Text.getInitials name) = true.
Proof.
  intros _. unfold Text.getInitials.
  set (parts := Text.split " " name). clearbody parts.
  assert (P : forall part,
            (length (Js.toUpperCase (Text.charAt0 part)) <= 1)%nat
            /\ Js.all_chars (fun c => negb (Js.is_lower c))
                 (Js.toUpperCase (Text.charAt0 part)) = true).
  { intros [|c r]; [split; [cbn; lia | reflexivity]|].
    unfold Text.charAt0. cbn [Js.take Js.toUpperCase length Js.all_chars].
    rewrite upper_char_not_lower. split; [lia | reflexivity]. }
  destruct parts as [|p1 [|p2 rest]]; cbn [map firstn Text.join fold_right].
  - split; [cbn; lia | reflexivity].
  - destruct (P p1) as [L1 A1]. rewrite length_app, all_chars_app, A1.
    cbn [length Js.all_chars]. split; [lia | reflexivity].
  - destruct (P p1) as [L1 A1]. destruct (P p2) as [L2 A2].
    rewrite !length_app, !all_chars_app, A1, A2.
    cbn [length Js.all_chars]. split; [lia | reflexivity].
Qed.

Lemma getInitials_at_most_two_witness :
  (length (Text.getInitials "mary o'neil smith") <= 2)%nat
  /\ Js.all_chars (fun c => negb (Js.is_lower c))
       (Text.getInitials "mary o'neil smith") = true.
Proof. apply getInitials_at_most_two. reflexivity. Defined.

(** X6.  generateId returns the first nine radix-36 digits of the random
    fraction: lower-case letters and digits only, nine characters when the
    fraction prints that many digits and fewer otherwise, none at all for
    a draw of 0. *)
Theorem generateId_shape (rnd : list nat) :
  Forall (fun d => (d < 36)%nat) rnd ->
  length (Text.generateId rnd) = Nat.min 9 (List.length rnd)
  /\ Js.all_chars (fun c => Js.is_digit c || Js.is_lower c) (Text.generateId rnd) = true.
Proof.
  intros H. unfold Text.generateId, Js.substr, Js.fraction_toString36.
  destruct rnd as [|d ds]; [split; reflexivity|].
  change (Js.drop 2 ("0." ++ ?x)) with x.
  rewrite length_take, length_digits36. split; [reflexivity|].
  apply all_chars_take, all_chars_digits36, H.
Qed.

Lemma generateId_shape_witness :
  length (Text.generateId [10; 3; 35]%nat) = Nat.min 9 (List.length [10; 3; 35]%nat)
  /\ Js.all_chars (fun c => Js.is_digit c || Js.is_lower c)
       (Text.generateId [10; 3; 35]%nat) = true.
Proof.
  apply generateId_shape. repeat (constructor; [lia|]). constructor.
Defined.

(* ------------------------------------------------------------------ *)
(** ** Regular expressions and the e-mail test *)

Section RegexFacts.
Import Js Regex.

Lemma append_nil_inv s1 s2 : s1 ++ s2 = EmptyString -> s1 = EmptyString /\ s2 = EmptyString.
Proof. destruct s1; cbn [append]; [auto | discriminate]. Qed.

Lemma append_assoc_s (a b c : string) : (a ++ b) ++ c = a ++ (b ++ c).
Proof. induction a as [|x a IH]; cbn [append]; congruence. Qed.

Lemma nullable_lang r : nullable r = true <-> lang r EmptyString.
Proof.
  split.
  - induction r as [| | p | r1 IH1 r2 IH2 | r1 IH1 r2 IH2 | r IH];
      cbn [nullable]; intros H; try discriminate.
    + constructor.
    + apply andb_prop in H. destruct H as [H1 H2].
      change EmptyString with (EmptyString ++ EmptyString). constructor; auto.
    + apply orb_prop in H. destruct H as [H|H]; [apply L_AltL | apply L_AltR]; auto.
    + constructor.
  - intros H. remember EmptyString as t eqn:Et.
    induction H as [| p c Hp | r1 r2 s1 s2 H1 IH1 H2 IH2 | r1 r2 s H IH
                    | r1 r2 s H IH | r | r s1 s2 H1 IH1 H2 IH2];
      cbn [nullable]; try reflexivity; try discriminate.
    + apply append_nil_inv in Et. destruct Et as [-> ->]. now rewrite IH1, IH2.
    + now rewrite IH.
    + rewrite IH by assumption. apply orb_true_r.
Qed.

Lemma lang_deriv c r : forall s, lang (deriv c r) s -> lang r (String c s).
Proof.
  induction r as [| | p | r1 IH1 r2 IH2 | r1 IH1 r2 IH2 | r IH];
    cbn [deriv]; intros s H.
  - inversion H.
  - inversion H.
  - destruct (p c) eqn:Hp; inversion H; subst. now constructor.
  - destruct (nullable r1) eqn:N.
    + inversion H as [| | | ? ? ? HL | ? ? ? HR | |]; subst.
      * inversion HL as [| | ? ? s1 s2 Ha Hb | | | |]; subst.
        change (String c (s1 ++ s2)) with (String c s1 ++ s2). constructor; auto.
      * change (String c s) with (EmptyString ++ String c s).
        constructor; [now apply nullable_lang | auto].
    + inversion H as [| | ? ? s1 s2 Ha Hb | | | |]; subst.
      change (String c (s1 ++ s2)) with (String c s1 ++ s2). constructor; auto.
  - inversion H; subst; [apply L_AltL | apply L_AltR]; auto.
  - inversion H as [| | ? ? s1 s2 Ha Hb | | | |]; subst.
    change (String c (s1 ++ s2)) with (String c s1 ++ s2). constructor; auto.
Qed.

Lemma deriv_lang r t : lang r t -> forall c s, t = String c s -> lang (deriv c r) s.
Proof.
  induction 1 as [| p c0 Hp | r1 r2 s1 s2 H1 IH1 H2 IH2 | r1 r2 s0 H IH
                  | r1 r2 s0 H IH | r | r s1 s2 H1 IH1 H2 IH2];
    intros c s E; cbn [deriv]; try discriminate.
  - injection E as -> <-. rewrite Hp. constructor.
  - destruct s1 as [|x s1']; cbn [append] in E.
    + assert (N : nullable r1 = true) by now apply nullable_lang.
      rewrite N. apply L_AltR. now apply IH2.
    + injection E as -> <-.
      assert (D : lang (Cat (deriv c r1) r2) (s1' ++ s2))
        by (constructor; [now apply IH1 | assumption]).
      destruct (nullable r1); [now apply L_AltL | exact D].
  - apply L_AltL. now apply IH.
  - apply L_AltR. now apply IH.
  - destruct s1 as [|x s1']; cbn [append] in E.
    + now apply IH2.
    + injection E as -> <-. constructor; [now apply IH1 | assumption].
Qed.

(** The derivative test decides membership. *)
Lemma test_lang : forall s r, test r s = true <-> lang r s.
Proof.
  induction s as [|c s IH]; intros r; cbn [test].
  - apply nullable_lang.
  - rewrite IH. split; [apply lang_deriv | intros H; now apply (deriv_lang r _ H)].
Qed.

Lemma lang_cls p s : lang (Cls p) s <-> exists c, s = String c EmptyString /\ p c = true.
Proof.
  split.
  - intros H. inversion H; subst. eauto.
  - intros (c & -> & Hp). now constructor.
Qed.

Lemma lang_star_cls p s : lang (Star (Cls p)) s <-> all_chars p s = true.
Proof.
  split.
  - intros H. remember (Star (Cls p)) as r eqn:Er.
    induction H as [| | | | | r0 | r0 s1 s2 H1 _ H2 IH2]; try discriminate.
    + reflexivity.
    + injection Er as ->. apply lang_cls in H1. destruct H1 as (c & -> & Hp).
      cbn [append all_chars]. rewrite Hp. now apply IH2.
  - induction s as [|c s IH]; cbn [all_chars]; intros H; [constructor|].
    apply andb_prop in H. destruct H as [Hc Hs].
    change (String c s) with (String c EmptyString ++ s).
    constructor; [now constructor | auto].
Qed.

Lemma lang_plus_cls p s :
  lang (Plus (Cls p)) s <-> s <> EmptyString /\ all_chars p s = true.
Proof.
  unfold Plus. split.
  - intros H. inversion H as [| | ? ? s1 s2 Ha Hb | | | |]; subst.
    apply lang_cls in Ha. destruct Ha as (c & -> & Hp).
    apply lang_star_cls in Hb. cbn [append all_chars]. rewrite Hp, Hb.
    split; [discriminate | reflexivity].
  - intros [Hne Hs]. destruct s as [|c s]; [congruence|].
    cbn [all_chars] in Hs. apply andb_prop in Hs. destruct Hs as [Hc Hs].
    change (String c s) with (String c EmptyString ++ s).
    constructor; [now constructor | now apply lang_star_cls].
Qed.

Lemma lang_emailRegex email : lang emailRegex email <-> email_parts email.
Proof.
  unfold emailRegex, email_parts. split.
  - intros H.
    inversion H as [| | ? ? a r1 Ha H1 | | | |]; subst. clear H.
    inversion H1 as [| | ? ? at_ r2 Hat H2 | | | |]; subst. clear H1.
    inversion H2 as [| | ? ? b r3 Hb H3 | | | |]; subst. clear H2.
    inversion H3 as [| | ? ? dot c Hdot Hc | | | |]; subst. clear H3.
    apply lang_cls in Hat. destruct Hat as (x & -> & Hx).
    apply lang_cls in Hdot. destruct Hdot as (y & -> & Hy).
    apply Ascii.eqb_eq in Hx. apply Ascii.eqb_eq in Hy. subst x y.
    apply lang_plus_cls in Ha. apply lang_plus_cls in Hb. apply lang_plus_cls in Hc.
    exists a, b, c. repeat split; try tauto.
  - intros (a & b & c & -> & Ha & Hb & Hc).
    constructor; [now apply lang_plus_cls|].
    change ("@" ++ b ++ "." ++ c) with (String "@" EmptyString ++ (b ++ "." ++ c)).
    constructor; [constructor; apply Ascii.eqb_refl|].
    constructor; [now apply lang_plus_cls|].
    change ("." ++ c) with (String "." EmptyString ++ c).
    constructor; [constructor; apply Ascii.eqb_refl | now apply lang_plus_cls].
Qed.

Lemma count_char_app c a b : count_char c (a ++ b) = (count_char c a + count_char c b)%nat.
Proof. induction a as [|x a IH]; cbn [append count_char]; [reflexivity | rewrite IH; lia]. Qed.

Lemma not_space_at_no_at s :
  all_chars not_space_at s = true ->
  count_char "@" s = O /\ all_chars (fun c => negb (is_space c)) s = true.
Proof.
  induction s as [|x s IH]; cbn [all_chars count_char]; [auto|].
  intros H. apply andb_prop in H. destruct H as [Hx Hs].
  destruct (IH Hs) as [C A]. rewrite C, A.
  unfold not_space_at in Hx. apply negb_true_iff, orb_false_elim in Hx.
  destruct Hx as [Hsp Hat]. now rewrite Hsp, Hat.
Qed.

End RegexFacts.

Example isValidEmail_samples :
  Regex.isValidEmail "ann@example.org" = true
  /\ Regex.isValidEmail "a.b@mail.example.org" = true
  /\ Regex.isValidEmail "ann@example" = false
  /\ Regex.isValidEmail "ann@@example.org" = false
  /\ Regex.isValidEmail "ann smith@example.org" = false
  /\ Regex.isValidEmail "ann@example." = false
  /\ Regex.isValidEmail "ann@.org" = false
  /\ Regex.isValidEmail "" = false.
Proof. repeat split. Qed.

(** X7.  isValidEmail accepts exactly the strings of the form
    local@domain.tld in which local, domain and tld are non-empty and hold
    neither white space nor an at sign (dots are allowed in all three). *)
Theorem isValidEmail_shape (email : string) :
  Regex.isValidEmail email = true
  <-> exists local domain tld,
        email = local ++ "@" ++ domain ++ "." ++ tld
        /\ (local <> "" /\ Js.all_chars Regex.not_space_at local = true)
        /\ (domain <> "" /\ Js.all_chars Regex.not_space_at domain = true)
        /\ (tld <> "" /\ Js.all_chars Regex.not_space_at tld = true).
Proof.
  unfold Regex.isValidEmail. rewrite test_lang. apply lang_emailRegex.
Qed.

(** X8.  An address accepted by isValidEmail holds exactly one at sign
    and no white space, and has at least five characters. *)
Theorem isValidEmail_one_at_sign (email : string) :
  Regex.isValidEmail email = true ->
  Regex.count_char "@" email = 1%nat
  /\ Js.all_chars (fun c => negb (Js.is_space c)) email = true
  /\ (5 <= length email)%nat.
Proof.
  unfold Regex.isValidEmail. rewrite test_lang, lang_emailRegex.
  intros (a & b & c & -> & [Na Ha] & [Nb Hb] & [Nc Hc]).
  destruct (not_space_at_no_at a Ha) as [Ca Sa].
  destruct (not_space_at_no_at b Hb) as [Cb Sb].
  destruct (not_space_at_no_at c Hc) as [Cc Sc].
  rewrite !count_char_app, !all_chars_app, !length_app, Ca, Cb, Cc, Sa, Sb, Sc.
  repeat split.
  destruct a; [congruence|]. destruct b; [congruence|]. destruct c; [congruence|].
  cbn [length]. lia.
Qed.

Lemma isValidEmail_one_at_sign_witness :
  Regex.count_char "@" "ann@example.org" = 1%nat
  /\ Js.all_chars (fun c => negb (Js.is_space c)) "ann@example.org" = true
  /\ (5 <= length "ann@example.org")%nat.
Proof. apply isValidEmail_one_at_sign. reflexivity. Defined.

(* ------------------------------------------------------------------ *)
(** ** sortBy and groupBy *)

Section SortFacts.
Import Collections.
Context {T : Type}.

Lemma insert_ext (cmp cmp' : T -> T -> Z) :
  (forall a b, cmp a b = cmp' a b) ->
  forall x l, insert cmp x l = insert cmp' x l.
Proof.
  intros E x l. induction l as [|y r IH]; cbn [insert]; [reflexivity|].
  now rewrite E, IH.
Qed.

Lemma Array_sort_ext (cmp cmp' : T -> T -> Z) :
  (forall a b, cmp a b = cmp' a b) ->
  forall array, Array_sort cmp array = Array_sort cmp' array.
Proof.
  intros E array. unfold Array_sort. generalize (@nil T).
  induction array as [|x r IH]; intros acc; cbn [fold_left]; [reflexivity|].
  now rewrite (insert_ext cmp cmp' E), IH.
Qed.

Lemma compareFn_desc (key : T -> Z) a b :
  compareFn key desc a b = compareFn (fun x => - key x) asc a b.
Proof.
  unfold compareFn.
  destruct (Z.eqb_spec (key a) (key b)), (Z.eqb_spec (- key a) (- key b)); try lia.
  destruct (Z.ltb_spec (key a) (key b)), (Z.ltb_spec (- key a) (- key b)); lia.
Qed.

Variable key : T -> Z.
Let le_key (a b : T) : Prop := key a <= key b.
Let cmp := compareFn key asc.

Lemma compareFn_asc_positive y x : (0 <? cmp y x) = (key x <? key y).
Proof.
  unfold cmp, compareFn.
  destruct (Z.eqb_spec (key y) (key x)), (Z.ltb_spec (key y) (key x)),
    (Z.ltb_spec (key x) (key y)); cbn; lia.
Qed.

Lemma insert_perm x l : Permutation (insert cmp x l) (x :: l).
Proof.
  induction l as [|y r IH]; cbn [insert]; [reflexivity|].
  destruct (0 <? cmp y x); [reflexivity|].
  rewrite IH. apply perm_swap.
Qed.

Lemma insert_sorted x l : StronglySorted le_key l -> StronglySorted le_key (insert cmp x l).
Proof.
  induction 1 as [|y r Hr IH Hy]; cbn [insert].
  - repeat constructor.
  - rewrite compareFn_asc_positive. destruct (Z.ltb_spec (key x) (key y)) as [Hlt|Hge].
    + constructor; [now constructor|]. constructor; [unfold le_key; lia|].
      eapply Forall_impl; [|exact Hy]. unfold le_key. intros z Hz. lia.
    + constructor; [exact IH|].
      apply (Permutation_Forall (Permutation_sym (insert_perm x r))).
      constructor; [unfold le_key; lia | exact Hy].
Qed.

Lemma filter_above k l :
  Forall (fun z => k < key z) l -> filter (fun z => key z =? k) l = [].
Proof.
  induction 1 as [|z r Hz _ IH]; cbn [filter]; [reflexivity|].
  destruct (Z.eqb_spec (key z) k); [lia | exact IH].
Qed.

Lemma insert_filter k x l :
  StronglySorted le_key l ->
  filter (fun z => key z =? k) (insert cmp x l)
  = (filter (fun z => key z =? k) l ++ (if key x =? k then [x] else []))%list.
Proof.
  induction 1 as [|y r Hr IH Hy]; cbn [insert].
  - cbn [filter app]. now destruct (key x =? k).
  - rewrite compareFn_asc_positive. destruct (Z.ltb_spec (key x) (key y)) as [Hlt|Hge].
    + cbn [filter]. destruct (Z.eqb_spec (key x) k) as [Ex|Nx].
      * destruct (Z.eqb_spec (key y) k); [lia|].
        rewrite filter_above; [reflexivity|].
        eapply Forall_impl; [|exact Hy]. unfold le_key. intros z Hz. lia.
      * now rewrite app_nil_r.
    + cbn [filter]. rewrite IH. now destruct (key y =? k).
Qed.

Lemma fold_insert_perm array : forall acc,
  Permutation (fold_left (fun sorted x => insert cmp x sorted) array acc) (acc ++ array)%list.
Proof.
  induction array as [|x r IH]; intros acc; cbn [fold_left].
  - now rewrite app_nil_r.
  - rewrite IH, insert_perm. apply Permutation_middle.
Qed.

Lemma fold_insert_sorted array : forall acc,
  StronglySorted le_key acc ->
  StronglySorted le_key (fold_left (fun sorted x => insert cmp x sorted) array acc).
Proof.
  induction array as [|x r IH]; intros acc H; cbn [fold_left]; [exact H|].
  apply IH, insert_sorted, H.
Qed.

Lemma fold_insert_filter k array : forall acc,
  StronglySorted le_key acc ->
  filter (fun z => key z =? k) (fold_left (fun sorted x => insert cmp x sorted) array acc)
  = (filter (fun z => key z =? k) acc ++ filter (fun z => key z =? k) array)%list.
Proof.
  induction array as [|x r IH]; intros acc H; cbn [fold_left].
  - cbn [filter]. now rewrite app_nil_r.
  - rewrite IH by now apply insert_sorted. rewrite insert_filter by exact H.
    rewrite <- app_assoc. cbn [filter]. now destruct (key x =? k).
Qed.

(** Ascending order: a permutation, sorted, equal keys in their original
    order. *)
Lemma sortBy_asc array :
  Permutation (sortBy key array asc) array
  /\ StronglySorted le_key (sortBy key array asc)
  /\ forall k, filter (fun z => key z =? k) (sortBy key array asc)
               = filter (fun z => key z =? k) array.
Proof.
  unfold sortBy, Array_sort. fold cmp. repeat split.
  - apply (fold_insert_perm array []).
  - apply fold_insert_sorted. constructor.
  - intros k. rewrite fold_insert_filter by constructor. reflexivity.
Qed.

End SortFacts.

Section GroupFacts.
Import Collections.
Context {T : Type}.
Variable key : T -> string.

Lemma get_set_same (groups : @Groups T) g items : get (set groups g items) g = Some items.
Proof.
  induction groups as [|[g' old] r IH]; cbn [set get].
  - now rewrite String.eqb_refl.
  - destruct (String.eqb g' g) eqn:E; cbn [get]; rewrite E; [reflexivity | exact IH].
Qed.

Lemma get_set_other (groups : @Groups T) g g' items :
  g <> g' -> get (set groups g items) g' = get groups g'.
Proof.
  intros N. induction groups as [|[h old] r IH]; cbn [set get].
  - apply String.eqb_neq in N. now rewrite N.
  - destruct (String.eqb_spec h g) as [->|Nh]; cbn [get].
    + apply String.eqb_neq in N. now rewrite N.
    + destruct (String.eqb h g'); [reflexivity | exact IH].
Qed.

Lemma members_snoc done item group :
  members key (done ++ [item])%list group
  = (members key done group ++ (if String.eqb (key item) group then [item] else []))%list.
Proof. unfold members. rewrite filter_app. cbn [filter]. now destruct (String.eqb (key item) group). Qed.

Lemma reducer_step (groups : @Groups T) done item :
  (forall g, get groups g = lookup_of key done g) ->
  inherited (key item) = false ->
  exists groups', reducer key groups item = Some groups'
    /\ forall g, get groups' g = lookup_of key (done ++ [item])%list g.
Proof.
  intros Inv Hk. unfold reducer. rewrite Inv. unfold lookup_of at 1.
  destruct (members key done (key item)) as [|m ms] eqn:Em.
  - rewrite Hk. eexists. split; [reflexivity|]. intros g.
    unfold lookup_of. rewrite members_snoc.
    destruct (String.eqb_spec (key item) g) as [<-|N].
    + rewrite get_set_same, Em. reflexivity.
    + rewrite get_set_other by exact N. rewrite app_nil_r. apply Inv.
  - eexists. split; [reflexivity|]. intros g.
    unfold lookup_of. rewrite members_snoc.
    destruct (String.eqb_spec (key item) g) as [<-|N].
    + rewrite get_set_same, Em. reflexivity.
    + rewrite get_set_other by exact N. rewrite app_nil_r. apply Inv.
Qed.

Lemma reduce_groups array : forall (groups : @Groups T) done,
  (forall g, get groups g = lookup_of key done g) ->
  Forall (fun item => inherited (key item) = false) array ->
  exists groups', reduce key array groups = Some groups'
    /\ forall g, get groups' g = lookup_of key (done ++ array)%list g.
Proof.
  induction array as [|item r IH]; intros groups done Inv F; cbn [reduce].
  - exists groups. split; [reflexivity|]. now rewrite app_nil_r.
  - inversion F as [|? ? Hk Hr]; subst.
    destruct (reducer_step groups done item Inv Hk) as (g1 & E1 & Inv1).
    rewrite E1. destruct (IH g1 (done ++ [item])%list Inv1 Hr) as (g2 & E2 & Inv2).
    exists g2. split; [exact E2|]. intros g. rewrite Inv2, <- app_assoc. reflexivity.
Qed.

Lemma reduce_throws array : forall (groups : @Groups T) done,
  (forall g, get groups g = lookup_of key done g) ->
  Forall (fun item => inherited (key item) = false) done ->
  Exists (fun item => inherited (key item) = true) array ->
  reduce key array groups = None.
Proof.
  induction array as [|item r IH]; intros groups done Inv Fd Ex; [inversion Ex|].
  cbn [reduce]. destruct (inherited (key item)) eqn:Hk.
  - unfold reducer. rewrite Inv, Hk. unfold lookup_of.
    assert (E : members key done (key item) = []).
    { unfold members. clear - Fd Hk. induction Fd as [|d ds Hd _ IHd]; cbn [filter];
        [reflexivity|].
      destruct (String.eqb_spec (key d) (key item)) as [Eq|_]; [congruence | exact IHd]. }
    now rewrite E.
  - destruct (reducer_step groups done item Inv Hk) as (g1 & E1 & Inv1). rewrite E1.
    apply (IH g1 (done ++ [item])%list Inv1).
    + apply Forall_app. split; [exact Fd | now constructor].
    + inversion Ex as [? ? Hx | ? ? Hx]; subst; [congruence | exact Hx].
Qed.

End GroupFacts.

Example sortBy_samples :
  Collections.sortBy fst [(3, "c"); (1, "a"); (3, "d"); (2, "b")] Collections.asc
    = [(1, "a"); (2, "b"); (3, "c"); (3, "d")]
  /\ Collections.sortBy fst [(3, "c"); (1, "a"); (3, "d"); (2, "b")] Collections.desc
    = [(3, "c"); (3, "d"); (2, "b"); (1, "a")].
Proof. repeat split. Qed.

(** X9.  sortBy on an integer key returns a permutation of the array,
    ordered by the key in the direction asked for, in which items with
    equal keys keep the order they had in the array, in both directions:
    the descending result is not the reverse of the ascending one. *)
Theorem sortBy_sorted_stable {T : Type} (key : T -> Z) (array : list T)
    (direction : Collections.Direction) :
  Permutation (Collections.sortBy key array direction) array
  /\ StronglySorted
       (fun a b => match direction with
                   | Collections.asc => key a <= key b
                   | Collections.desc => key b <= key a
                   end)
       (Collections.sortBy key array direction)
  /\ forall k, filter (fun z => key z =? k) (Collections.sortBy key array direction)
               = filter (fun z => key z =? k) array.
Proof.
  destruct direction.
  - apply sortBy_asc.
  - assert (E : Collections.sortBy key array Collections.desc
                = Collections.sortBy (fun x => - key x) array Collections.asc).
    { unfold Collections.sortBy. apply Array_sort_ext. apply compareFn_desc. }
    rewrite E. destruct (sortBy_asc (fun x => - key x) array) as (P & S & F).
    repeat split; [exact P | |].
    + clear - S. induction S as [|y r _ IH Hy]; constructor; [exact IH|].
      eapply Forall_impl; [|exact Hy]. cbn beta. intros z Hz. lia.
    + intros k. specialize (F (- k)).
      assert (X : forall l : list T,
                filter (fun z => key z =? k) l = filter (fun z => - key z =? - k) l).
      { intros l. apply filter_ext. intros z.
        destruct (Z.eqb_spec (key z) k), (Z.eqb_spec (- key z) (- k)); lia. }
      rewrite !X. exact F.
Qed.

Example groupBy_samples :
  Collections.groupBy snd [(1, "a"); (2, "b"); (3, "a")]
    = Some [("a", [(1, "a"); (3, "a")]); ("b", [(2, "b")])]
  /\ Collections.groupBy snd [(1, "a"); (2, "constructor"); (3, "a")] = None.
Proof. repeat split. Qed.

(** X10.  When no item's group key is a property name inherited from
    Object.prototype, groupBy succeeds, and the property it stores under a
    group key holds exactly the items of the array with that key, in array
    order; a key no item has is not a property of the result. *)
Theorem groupBy_members {T : Type} (key : T -> string) (array : list T) :
  Forall (fun item => Collections.inherited (key item) = false) array ->
  exists groups,
    Collections.groupBy key array = Some groups
    /\ forall group,
         Collections.get groups group
         = match Collections.members key array group with
           | [] => None
           | items => Some items
           end.
Proof.
  intros F. unfold Collections.groupBy.
  destruct (reduce_groups key array [] [] (fun g => eq_refl) F) as (g & E & Inv).
  exists g. split; [exact E | exact Inv].
Qed.

Lemma groupBy_members_witness :
  exists groups,
    Collections.groupBy snd [(1, "a"); (2, "b"); (3, "a")] = Some groups
    /\ forall group,
         Collections.get groups group
         = match Collections.members snd [(1, "a"); (2, "b"); (3, "a")] group with
           | [] => None
           | items => Some items
           end.
Proof.
  apply (groupBy_members snd [(1, "a"); (2, "b"); (3, "a")]).
  repeat constructor.
Defined.

(** X11.  groupBy throws exactly when some item's group key is a property
    name that every object inherits (constructor, toString, valueOf,
    __proto__, ...): the value found under it is not an array and has no
    push. *)
Theorem groupBy_throws_iff {T : Type} (key : T -> string) (array : list T) :
  Collections.groupBy key array = None
  <-> Exists (fun item => Collections.inherited (key item) = true) array.
Proof.
  split.
  - intros H.
    destruct (Forall_Exists_dec (fun item => Collections.inherited (key item) = false)
                (fun item => bool_dec _ _) array) as [F|E].
    + destruct (reduce_groups key array [] [] (fun g => eq_refl) F) as (g & Eg & _).
      unfold Collections.groupBy in H. congruence.
    + eapply Exists_impl; [|exact E]. cbn beta. intros item Hi.
      now destruct (Collections.inherited (key item)).
  - intros E. apply (reduce_throws key array [] [] (fun g => eq_refl)); [constructor | exact E].
Qed.

(* ------------------------------------------------------------------ *)
(** ** The status badge table *)

(** X12.  Every entry of the status badge table is built from one hue:
    its colour classes are bg-HUE-100, text-HUE-800 and border-HUE-200,
    its background bg-HUE-500 and its text colour text-HUE-800; and no two
    statuses share a label or a colour. *)
Theorem statusConfig_consistent :
  (forall s, exists hue,
      let c := StatusConfig.getStatusConfig s in
      StatusConfig.color c
        = "bg-" ++ hue ++ "-100 text-" ++ hue ++ "-800 border-" ++ hue ++ "-200"
      /\ StatusConfig.bgColor c = "bg-" ++ hue ++ "-500"
      /\ StatusConfig.textColor c = "text-" ++ hue ++ "-800")
  /\ (forall s1 s2,
        StatusConfig.label (StatusConfig.getStatusConfig s1)
        = StatusConfig.label (StatusConfig.getStatusConfig s2) -> s1 = s2)
  /\ (forall s1 s2,
        StatusConfig.color (StatusConfig.getStatusConfig s1)
        = StatusConfig.color (StatusConfig.getStatusConfig s2) -> s1 = s2).
Proof.
  repeat split.
  - intros s.
    destruct s;
      [exists "blue" | exists "yellow" | exists "purple" | exists "cyan"
      | exists "orange" | exists "indigo" | exists "green" | exists "teal"
      | exists "emerald" | exists "red"]; repeat split.
  - intros s1 s2; destruct s1, s2; cbn; intros H; try reflexivity; discriminate H.
  - intros s1 s2; destruct s1, s2; cbn; intros H; try reflexivity; discriminate H.
Qed.

(* ------------------------------------------------------------------ *)
(** ** Error messages and query strings *)

Section ApiClientFacts.
Import Js ApiClient.

Lemma digits_to_not_empty fuel : forall n acc, digits_to fuel n acc <> EmptyString.
Proof.
  induction fuel as [|f IH]; intros n acc; cbn [digits_to]; [discriminate|].
  destruct (n <? 10); [discriminate | apply IH].
Qed.

Lemma toString_not_empty n : toString n <> EmptyString.
Proof.
  unfold toString, nat_digits. destruct (n <? 0); [discriminate|].
  apply digits_to_not_empty.
Qed.

Lemma truthy_not_empty s : Validation.truthy s = true <-> s <> EmptyString.
Proof.
  unfold Validation.truthy. rewrite negb_true_iff. apply String.eqb_neq.
Qed.

Lemma String_of_set v : is_set v = true -> String_of v <> EmptyString.
Proof.
  destruct v as [| | [|] | n | s]; cbn [is_set String_of]; try discriminate.
  - intros _. apply toString_not_empty.
  - apply truthy_not_empty.
Qed.

Lemma buildQueryParams_cons k v params :
  buildQueryParams ((k, PScalar v) :: params)
  = ((if is_set v then [(k, String_of v)] else []) ++ buildQueryParams params)%list.
Proof. reflexivity. Qed.

Lemma buildQueryParams_scalars params :
  scalars_only params ->
  (forall k x, In (k, x) (buildQueryParams params)
               <-> exists sv, In (k, PScalar sv) params
                              /\ is_set sv = true /\ x = String_of sv)
  /\ Forall (fun kv => snd kv <> EmptyString) (buildQueryParams params)
  /\ (NoDup (map fst params) -> NoDup (map fst (buildQueryParams params))).
Proof.
  induction params as [|[k0 v0] r IH]; intros Sc.
  - repeat split; try constructor.
    + intros [].
    + intros (sv & [] & _).
  - destruct (Sc k0 v0 (or_introl eq_refl)) as (sv0 & ->).
    assert (Scr : scalars_only r) by (intros k v Hin; apply (Sc k v); now right).
    destruct (IH Scr) as (Hin & Hne & Hnd). rewrite buildQueryParams_cons.
    repeat split.
    + intros H. apply in_app_or in H. destruct H as [H|H].
      * destruct (is_set sv0) eqn:S0; [|destruct H].
        destruct H as [H|[]]. injection H as <- <-.
        exists sv0. repeat split; [now left | exact S0].
      * apply Hin in H. destruct H as (sv & Hi & Hs & Hx).
        exists sv. repeat split; [now right | exact Hs | exact Hx].
    + intros (sv & [Hi|Hi] & Hs & ->); apply in_or_app.
      * injection Hi as <- <-. left. rewrite Hs. now left.
      * right. apply Hin. now exists sv.
    + apply Forall_app. split; [|exact Hne].
      destruct (is_set sv0) eqn:S0; constructor; [|constructor].
      now apply String_of_set.
    + cbn [map]. intros ND. inversion ND as [|? ? Hnotin NDr]; subst.
      rewrite map_app. destruct (is_set sv0); cbn [map app]; [|now apply Hnd].
      constructor; [|now apply Hnd].
      intros Hk. apply in_map_iff in Hk. destruct Hk as ([k x] & Ek & Hx).
      cbn [fst] in Ek. subst k. apply Hin in Hx. destruct Hx as (sv & Hi & _).
      apply Hnotin. apply in_map_iff. now exists (k0, PScalar sv).
Qed.

End ApiClientFacts.

Example getErrorMessage_samples :
  ApiClient.getErrorMessage None
    = "Network error. Please check your connection and try again."
  /\ ApiClient.getErrorMessage
       (Some {| ApiClient.status_code := 422; ApiClient.detail := Some "Claim number taken" |})
     = "Claim number taken"
  /\ ApiClient.getErrorMessage
       (Some {| ApiClient.status_code := 503; ApiClient.detail := Some "" |})
     = "Service temporarily unavailable. Please try again later."
  /\ ApiClient.getErrorMessage
       (Some {| ApiClient.status_code := 418; ApiClient.detail := None |})
     = "An unexpected error occurred. Please try again.".
Proof. repeat split. Qed.

(** X13.  getErrorMessage never returns an empty message, whatever the
    status and whether or not there is a response; and a non-empty detail
    sent by the API is shown as it is, whatever the status. *)
Theorem getErrorMessage_never_empty :
  (forall response, ApiClient.getErrorMessage response <> "")
  /\ (forall status d,
        d <> "" ->
        ApiClient.getErrorMessage
          (Some {| ApiClient.status_code := status; ApiClient.detail := Some d |}) = d).
Proof.
  split.
  - intros [[status [d|]]|]; cbn [ApiClient.getErrorMessage ApiClient.status_code
                                    ApiClient.detail]; [| |discriminate].
    + destruct (Validation.truthy d) eqn:Td; [now apply truthy_not_empty|].
      repeat match goal with
             | |- context [if ?b then _ else _] => destruct b
             end; discriminate.
    + repeat match goal with
             | |- context [if ?b then _ else _] => destruct b
             end; discriminate.
  - intros status d Hd. cbn [ApiClient.getErrorMessage ApiClient.status_code
                               ApiClient.detail].
    apply truthy_not_empty in Hd. now rewrite Hd.
Qed.

Lemma getErrorMessage_never_empty_witness :
  ApiClient.getErrorMessage
    (Some {| ApiClient.status_code := 422; ApiClient.detail := Some "Claim number taken" |})
  = "Claim number taken".
Proof. apply (proj2 getErrorMessage_never_empty). discriminate. Defined.

Example buildQueryParams_samples :
  ApiClient.buildQueryParams
    [("skip", ApiClient.PScalar (ApiClient.SNum 0));
     ("search", ApiClient.PScalar (ApiClient.SStr ""));
     ("status", ApiClient.PScalar ApiClient.SUndefined);
     ("codes", ApiClient.PArray [ApiClient.SStr "M54.5"; ApiClient.SNull; ApiClient.SStr ""])]
  = [("skip", "0"); ("codes", "M54.5"); ("codes", "null"); ("codes", "")].
Proof. reflexivity. Qed.

(** X14.  For parameters that are all scalars, buildQueryParams emits an
    entry for a key exactly when its value is neither null, undefined nor
    the empty string, with the value's string form; no emitted value is
    empty (0 and false are kept), and keys that are distinct in the input
    occur at most once in the query. *)
Theorem buildQueryParams_scalar_entries (params : list (string * ApiClient.param)) :
  (forall k v, In (k, v) params -> exists sv, v = ApiClient.PScalar sv) ->
  (forall k x, In (k, x) (ApiClient.buildQueryParams params)
               <-> exists sv, In (k, ApiClient.PScalar sv) params
                              /\ ApiClient.is_set sv = true
                              /\ x = ApiClient.String_of sv)
  /\ Forall (fun kv => snd kv <> "") (ApiClient.buildQueryParams params)
  /\ (NoDup (map fst params) -> NoDup (map fst (ApiClient.buildQueryParams params))).
Proof. apply buildQueryParams_scalars. Qed.

Lemma buildQueryParams_scalar_entries_witness :
  let params := [("skip", ApiClient.PScalar (ApiClient.SNum 0));
                 ("search", ApiClient.PScalar (ApiClient.SStr ""))] in
  (forall k x, In (k, x) (ApiClient.buildQueryParams params)
               <-> exists sv, In (k, ApiClient.PScalar sv) params
                              /\ ApiClient.is_set sv = true
                              /\ x = ApiClient.String_of sv)
  /\ Forall (fun kv => snd kv <> "") (ApiClient.buildQueryParams params)
  /\ (NoDup (map fst params) -> NoDup (map fst (ApiClient.buildQueryParams params))).
Proof.
  apply buildQueryParams_scalar_entries.
  intros k v [H|[H|[]]]; injection H as <- <-; eexists; reflexivity.
Defined.

Example getClaims_query_samples :
  ApiClient.getClaims_query
    {| ApiClient.skip := Some 40; ApiClient.limit := Some 0;
       ApiClient.status := Some Types.HUMAN_REVIEW; ApiClient.search := Some "";
       ApiClient.date_from := None; ApiClient.date_to := None;
       ApiClient.claim_type := None |}
  = [("skip", "40"); ("limit", "20"); ("status", "HUMAN_REVIEW")].
Proof. reflexivity. Qed.

(** X15.  The query getClaims requests always starts with a skip and a
    limit entry: a missing or zero skip is sent as 0, a missing or zero
    limit as 20, so the limit sent is never 0.  Every other filter follows
    at most once, without an empty value. *)
Theorem getClaims_query_defaults (filters : ApiClient.ClaimFilters) :
  exists rest,
    ApiClient.getClaims_query filters
    = ("skip", Js.toString (ApiClient.or_number (ApiClient.skip filters) 0))
      :: ("limit", Js.toString (ApiClient.or_number (ApiClient.limit filters) 20))
      :: rest
    /\ ApiClient.or_number (ApiClient.limit filters) 20 <> 0
    /\ Forall (fun kv => snd kv <> "") (ApiClient.getClaims_query filters)
    /\ NoDup (map fst (ApiClient.getClaims_query filters)).
Proof.
  unfold ApiClient.getClaims_query.
  set (params := [("skip", _); _; _; _; _; _; _]).
  assert (Sc : ApiClient.scalars_only params).
  { intros k v Hin. subst params. cbn [In] in Hin.
    repeat (destruct Hin as [Hin|Hin];
            [injection Hin as <- <-; unfold ApiClient.opt_string;
             repeat match goal with |- context [match ?o with _ => _ end] =>
               destruct o end; eexists; reflexivity|]).
    destruct Hin. }
  destruct (buildQueryParams_scalars params Sc) as (_ & Hne & Hnd).
  eexists. split; [|split; [|split]].
  - unfold params.
    cbn [ApiClient.buildQueryParams flat_map ApiClient.is_set app ApiClient.String_of].
    reflexivity.
  - unfold ApiClient.or_number. destruct (ApiClient.limit filters) as [n|]; [|lia].
    destruct (Z.eqb_spec n 0); lia.
  - exact Hne.
  - apply Hnd. subst params. cbn [map fst].
    repeat (constructor; [cbn [In]; intros H;
      repeat (destruct H as [H|H]; [discriminate H|]); exact H|]).
    constructor.
Qed.

(* ------------------------------------------------------------------ *)
(** ** Dashboard: filter state and pagination *)

Section DashboardFacts.
Import Dashboard.

Lemma floor_div_pos a b : 0 < b -> floor_div a b = a / b.
Proof.
  intros H. destruct b as [|p|p]; try lia.
  unfold floor_div, Qdiv, Qinv, inject_Z, Qmult, Qfloor. cbn [Qnum Qden].
  now rewrite Z.mul_1_r.
Qed.

Lemma ceil_div_pos a b : 0 < b -> ceil_div a b = (a + b - 1) / b.
Proof.
  intros H. destruct b as [|p|p]; try lia.
  unfold ceil_div, Qceiling, Qdiv, Qinv, inject_Z, Qmult, Qopp, Qfloor. cbn [Qnum Qden].
  rewrite Z.mul_1_r. cbn [Pos.mul].
  apply Z.div_unique with (r := Z.pos p - 1 - (- a) mod Z.pos p).
  - pose proof (Z.mod_pos_bound (- a) (Z.pos p)). lia.
  - pose proof (Z.div_mod (- a) (Z.pos p)). lia.
Qed.

Lemma or_number_skip n : ApiClient.or_number (Some n) 0 = n.
Proof. unfold ApiClient.or_number. destruct (Z.eqb_spec n 0); lia. Qed.

Lemma or_number_limit n : n <> 0 -> ApiClient.or_number (Some n) 20 = n.
Proof. intros H. unfold ApiClient.or_number. destruct (Z.eqb_spec n 0); lia. Qed.

Lemma pageButtons_range f total lim p :
  In (Some p) (pageButtons f total lim) -> 1 <= p <= totalPages total lim.
Proof.
  unfold pageButtons. intros H. apply in_map_iff in H. destruct H as (i & E & _).
  cbv zeta in E.
  destruct (Z.ltb_spec (totalPages total lim) (Z.max 1 (currentPage f - 2) + Z.of_nat i));
    [discriminate|].
  injection E as <-. lia.
Qed.

Lemma step_page_aligned f a : page_aligned f -> page_aligned (step f a).
Proof.
  intros (Hl & k & Hk & Hs). unfold page_aligned.
  destruct a as [v | v | | | total i]; cbn [step].
  - cbn. split; [exact Hl | exists 0; split; [lia | reflexivity]].
  - cbn. split; [exact Hl | exists 0; split; [lia | reflexivity]].
  - unfold handlePageChange, previousSkip, limit_of. cbn [limit skip].
    rewrite Hl, Hs, or_number_skip. split; [reflexivity|].
    exists (Z.max 0 (k - 1)). split; [lia | f_equal; lia].
  - unfold handlePageChange, nextSkip, limit_of. cbn [limit skip].
    rewrite Hl, Hs, or_number_skip. split; [reflexivity|].
    exists (k + 1). split; [lia | f_equal; lia].
  - destruct (nth i (pageButtons f total (limit_of f)) None) as [p|] eqn:E.
    + assert (Hin : In (Some p) (pageButtons f total (limit_of f))).
      { destruct (nth_in_or_default i (pageButtons f total (limit_of f)) None) as [H|H];
          rewrite E in H; [exact H | discriminate]. }
      apply pageButtons_range in Hin.
      unfold handlePageChange, pageSkip, limit_of. cbn [limit skip]. rewrite Hl.
      split; [reflexivity|]. exists (p - 1). split; [lia | f_equal; lia].
    + split; [exact Hl | now exists k].
Qed.

Lemma fold_page_aligned actions : forall f,
  page_aligned f -> page_aligned (fold_left step actions f).
Proof.
  induction actions as [|a r IH]; intros f H; cbn [fold_left]; [exact H|].
  apply IH, step_page_aligned, H.
Qed.

End DashboardFacts.

Example dashboard_run_sample :
  Dashboard.run [Dashboard.Next; Dashboard.Next; Dashboard.Page 95 0; Dashboard.Previous;
                 Dashboard.Previous; Dashboard.Next; Dashboard.TypeSearch "smith"]
  = {| Dashboard.skip := Some 0; Dashboard.limit := Some 20;
       Dashboard.status := None; Dashboard.search := Some "smith" |}
  /\ Dashboard.pageButtons (Dashboard.run [Dashboard.Next; Dashboard.Next; Dashboard.Next]) 95 20
     = [Some 2; Some 3; Some 4; Some 5; None].
Proof. split; reflexivity. Qed.

(** X16.  Whatever the user does on the dashboard (choosing a status,
    typing a search, Previous, Next, a page button), the filter state
    keeps the limit of 20 it starts with, so it is never undefined where
    the code asserts it, and the skip stays a non-negative multiple of the
    limit: the current page is skip / 20 + 1 exactly. *)
Theorem dashboard_filters_page_aligned (actions : list Dashboard.Action) :
  let f := Dashboard.run actions in
  Dashboard.limit f = Some 20
  /\ exists page,
       1 <= page
       /\ Dashboard.skip f = Some (20 * (page - 1))
       /\ Dashboard.currentPage f = page.
Proof.
  cbv zeta. unfold Dashboard.run.
  destruct (fold_page_aligned actions Dashboard.initial) as (Hl & k & Hk & Hs).
  { split; [reflexivity | exists 0; split; [lia | reflexivity]]. }
  split; [exact Hl|]. exists (k + 1). repeat split; [lia | rewrite Hs; f_equal; lia |].
  unfold Dashboard.currentPage. rewrite Hl, Hs, or_number_skip, or_number_limit by lia.
  rewrite floor_div_pos by lia.
  replace (20 * k) with (k * 20) by lia. rewrite Z.div_mul by lia. reflexivity.
Qed.

(** X17.  With a positive limit and a skip inside the list, every page
    button shown carries a page number between 1 and the number of pages;
    pressing it moves to an offset inside the list at which that page is
    the current one; and the current page is always among the buttons
    shown. *)
Theorem page_buttons_navigate (f : Dashboard.Filters) (total lim skp : Z) :
  0 < lim -> 0 <= skp < total ->
  Dashboard.skip f = Some skp -> Dashboard.limit f = Some lim ->
  (forall p, In (Some p) (Dashboard.pageButtons f total lim) ->
             1 <= p <= Dashboard.totalPages total lim
             /\ 0 <= Dashboard.pageSkip p lim < total
             /\ Dashboard.currentPage
                  (Dashboard.handlePageChange (Dashboard.pageSkip p lim) f) = p)
  /\ 1 <= Dashboard.currentPage f <= Dashboard.totalPages total lim
  /\ In (Some (Dashboard.currentPage f)) (Dashboard.pageButtons f total lim).
Proof.
  intros Hlim Hskp Hs Hl.
  assert (HT : Dashboard.totalPages total lim = (total + lim - 1) / lim)
    by (unfold Dashboard.totalPages; now apply ceil_div_pos).
  assert (HTm : lim * ((total + lim - 1) / lim) <= total + lim - 1)
    by (apply Z.mul_div_le; lia).
  assert (Hc : Dashboard.currentPage f = skp / lim + 1).
  { unfold Dashboard.currentPage. rewrite Hs, Hl, or_number_skip, or_number_limit by lia.
    now rewrite floor_div_pos. }
  assert (Hc1 : 1 <= skp / lim + 1) by (pose proof (Z.div_pos skp lim); lia).
  assert (HcT : skp / lim + 1 <= (total + lim - 1) / lim).
  { replace (skp / lim + 1) with ((skp + 1 * lim) / lim) by (rewrite Z.div_add; lia).
    apply Z.div_le_mono; lia. }
  split; [|split].
  - intros p Hp. apply pageButtons_range in Hp. rewrite HT in Hp.
    split; [now rewrite HT|]. unfold Dashboard.pageSkip. split; [nia|].
    unfold Dashboard.currentPage, Dashboard.handlePageChange.
    cbn [Dashboard.skip Dashboard.limit].
    rewrite Hl, or_number_skip, or_number_limit by lia.
    rewrite floor_div_pos by lia. rewrite Z.div_mul by lia. lia.
  - rewrite Hc, HT. lia.
  - unfold Dashboard.pageButtons. apply in_map_iff.
    exists (Z.to_nat (skp / lim + 1 - Z.max 1 (skp / lim + 1 - 2))).
    rewrite Hc, HT. split.
    + cbv zeta.
      destruct (Z.ltb_spec ((total + lim - 1) / lim)
                  (Z.max 1 (skp / lim + 1 - 2)
                   + Z.of_nat (Z.to_nat (skp / lim + 1 - Z.max 1 (skp / lim + 1 - 2)))));
        [lia | f_equal; lia].
    + apply in_seq. lia.
Qed.

Lemma page_buttons_navigate_witness :
  let f := Dashboard.run [Dashboard.Next; Dashboard.Next; Dashboard.Next] in
  (forall p, In (Some p) (Dashboard.pageButtons f 95 20) ->
             1 <= p <= Dashboard.totalPages 95 20
             /\ 0 <= Dashboard.pageSkip p 20 < 95
             /\ Dashboard.currentPage
                  (Dashboard.handlePageChange (Dashboard.pageSkip p 20) f) = p)
  /\ 1 <= Dashboard.currentPage f <= Dashboard.totalPages 95 20
  /\ In (Some (Dashboard.currentPage f)) (Dashboard.pageButtons f 95 20).
Proof.
  apply (page_buttons_navigate
           (Dashboard.run [Dashboard.Next; Dashboard.Next; Dashboard.Next]) 95 20 60);
    [lia | lia | reflexivity | reflexivity].
Defined.

(* ------------------------------------------------------------------ *)
(** ** The creation form's schema *)

Example claimSchema_weaker_samples :
  let long_policy :=
    {| Validation.cf_claim_number := "CLM000123A3Z0";
       Validation.cf_policy_number :=
         "POL-0123456789-0123456789-0123456789-0123456789-0123456789";
       Validation.cf_patient_name := "Zoe 2nd";
       Validation.cf_date_of_service := "2030-01-01";
       Validation.cf_claim_amount := 12555 # 1000;
       Validation.cf_claim_type := Types.RStr "VISION";
       Validation.cf_provider_name := None;
       Validation.cf_diagnosis_codes := None;
       Validation.cf_procedure_codes := None |} in
  CreateClaim.claimSchema Sample.parseDate long_policy = true
  /\ Validation.claimValidationSchema Sample.parseDate Sample.now long_policy = false.
Proof. split; reflexivity. Qed.

(** X18.  The creation form's own schema is weaker than the shared
    claimValidationSchema: every form the shared schema accepts, at any
    clock reading, is accepted by the form's schema. *)
Theorem claimValidationSchema_implies_claimSchema
    (parseDate : string -> option Z) (now : Z) (d : Validation.ClaimFormData) :
  Validation.claimValidationSchema parseDate now d = true ->
  CreateClaim.claimSchema parseDate d = true.
Proof.
  unfold Validation.claimValidationSchema, CreateClaim.claimSchema,
    Validation.claim_number_ok, Validation.policy_number_ok,
    Validation.patient_name_ok, Validation.date_of_service_ok,
    Validation.claim_amount_ok.
  rewrite !andb_true_iff. tauto.
Qed.

Lemma claimValidationSchema_implies_claimSchema_witness :
  CreateClaim.claimSchema Sample.parseDate Sample.form = true.
Proof.
  apply (claimValidationSchema_implies_claimSchema Sample.parseDate Sample.now).
  reflexivity.
Defined.

(* ------------------------------------------------------------------ *)
(** ** Request retry: success and bounds *)

Ltac split_all := repeat match goal with |- _ /\ _ => split end.

Section RetryMoreFacts.
Import Api.
Context {T : Type}.
Variable requestFn : nat -> Result T.
Variables maxRetries delay : Z.

Lemma invocations_app l1 l2 :
  invocations (l1 ++ l2) = (invocations l1 + invocations l2)%nat.
Proof. unfold invocations. now rewrite filter_app, List.length_app. Qed.

Lemma waits_app l1 l2 : waits (l1 ++ l2) = (waits l1 ++ waits l2)%list.
Proof.
  induction l1 as [|[|ms] r IH]; cbn [app waits]; [reflexivity | exact IH|].
  now rewrite IH.
Qed.

Lemma waits_all_attempts : forall n attempt,
  attempt + Z.of_nat n <= maxRetries ->
  waits (exhausted_log delay maxRetries n attempt) = backoffs delay attempt n.
Proof.
  induction n as [|k IH]; intros attempt H; [reflexivity|].
  cbn [exhausted_log waits backoffs].
  destruct (Z.ltb_spec attempt maxRetries); [|lia].
  cbn [app waits]. rewrite IH by lia. reflexivity.
Qed.

Lemma sum_backoffs : forall n a,
  1 <= a ->
  fold_right Z.add 0 (backoffs delay a n) = delay * 2 ^ (a - 1) * (2 ^ Z.of_nat n - 1).
Proof.
  induction n as [|k IH]; intros a Ha.
  - cbn [backoffs fold_right]. change (2 ^ Z.of_nat 0) with 1. lia.
  - cbn [backoffs fold_right]. rewrite IH by lia.
    replace (a + 1 - 1) with (Z.succ (a - 1)) by lia.
    rewrite Nat2Z.inj_succ, !Z.pow_succ_r by lia. ring.
Qed.

(** The loop when the first n calls fail with errors that are retried and
    the next call succeeds while attempts remain. *)
Lemma attempts_succeed (v : T) : forall n remaining attempt lastError w,
  (n < remaining)%nat ->
  attempt + Z.of_nat n <= maxRetries ->
  (forall k, (k < n)%nat ->
             exists e, requestFn (calls w + k) = Err e /\ isClientError e = false) ->
  requestFn (calls w + n) = Ok v ->
  attempts requestFn maxRetries delay remaining attempt lastError w
  = (Returned v,
     {| calls := calls w + n + 1;
        log := log w ++ exhausted_log delay maxRetries n attempt ++ [Invoke] |}).
Proof.
  induction n as [|n IH]; intros remaining attempt lastError [c l] Hn Ha Hfail Hok;
    (destruct remaining as [|k]; [lia|]); cbn [attempts calls log] in *;
    unfold bind at 1; unfold invoke at 1; cbn [calls log].
  - rewrite Nat.add_0_r in Hok. rewrite Hok. unfold ret.
    now rewrite Nat.add_0_r, Nat.add_1_r.
  - destruct (Hfail O ltac:(lia)) as (e & He & Hc). rewrite Nat.add_0_r in He.
    rewrite He, Hc. unfold bind at 1.
    destruct (Z.ltb_spec attempt maxRetries) as [_|]; [|lia].
    unfold sleep at 1. cbn [calls log].
    rewrite (IH k (attempt + 1) (Some e)); cbn [calls log]; try lia.
    + cbn [exhausted_log]. destruct (Z.ltb_spec attempt maxRetries) as [_|]; [|lia].
      f_equal. f_equal; [lia|]. rewrite <- !app_assoc. reflexivity.
    + intros j Hj. destruct (Hfail (S j) ltac:(lia)) as (e' & He' & Hc').
      exists e'. split; [|exact Hc'].
      now replace (S c + j)%nat with (c + S j)%nat by lia.
    + now replace (S c + n)%nat with (c + S n)%nat by lia.
Qed.

(** One iteration of the loop. *)
Lemma attempts_unfold k attempt lastError c l :
  attempts requestFn maxRetries delay (S k) attempt lastError {| calls := c; log := l |}
  = match requestFn c with
    | Ok v => (Returned v, {| calls := S c; log := l ++ [Invoke] |})
    | Err e =>
        if isClientError e
        then (Threw (Some e), {| calls := S c; log := l ++ [Invoke] |})
        else attempts requestFn maxRetries delay k (attempt + 1) (Some e)
               {| calls := S c;
                  log := if attempt <? maxRetries
                         then (l ++ [Invoke]) ++ [Wait (delay * 2 ^ (attempt - 1))]
                         else l ++ [Invoke] |}
    end.
Proof.
  cbn [attempts]. unfold bind, invoke. cbn [calls log].
  destruct (requestFn c) as [v|e]; [reflexivity|].
  destruct (isClientError e); [reflexivity|].
  destruct (attempt <? maxRetries); reflexivity.
Qed.

(** What every run of the loop satisfies, whatever the request function
    returns, when the iterations left are those up to maxRetries. *)
Lemma attempts_bounds : forall remaining attempt lastError w,
  attempt + Z.of_nat remaining = maxRetries + 1 ->
  let r := attempts requestFn maxRetries delay remaining attempt lastError w in
  exists j,
    (j <= remaining)%nat
    /\ (1 <= remaining -> 1 <= j)%nat
    /\ calls (snd r) = (calls w + j)%nat
    /\ invocations (log (snd r)) = (invocations (log w) + j)%nat
    /\ waits (log (snd r)) = (waits (log w) ++ backoffs delay attempt (j - 1))%list
    /\ (forall v, fst r = Returned v ->
                  (1 <= j)%nat /\ requestFn (calls w + j - 1) = Ok v).
Proof.
  induction remaining as [|k IH]; intros attempt lastError [c l] Hlink.
  - exists O. cbn. rewrite !Nat.add_0_r, app_nil_r.
    split_all; try lia; try reflexivity. intros v H. discriminate H.
  - rewrite attempts_unfold. destruct (requestFn c) as [v|e] eqn:Hr.
    + exists 1%nat. cbn [fst snd calls log backoffs Nat.sub].
      rewrite invocations_app, waits_app, app_nil_r. cbn [waits].
      rewrite app_nil_r. split_all; try lia; try reflexivity.
      intros v' H. injection H as <-.
      split; [lia | now replace (c + 1 - 1)%nat with c by lia].
    + destruct (isClientError e).
      * exists 1%nat. cbn [fst snd calls log backoffs Nat.sub].
        rewrite invocations_app, waits_app, app_nil_r. cbn [waits].
        rewrite app_nil_r. split_all; try lia; try reflexivity.
        intros v' H. discriminate H.
      * match goal with |- context [attempts _ _ _ k _ _ ?w] =>
          specialize (IH (attempt + 1) (Some e) w ltac:(lia)) end.
        destruct IH as (j & Hj & Hj1 & Hcalls & Hinv & Hw & Hret).
        cbn [calls log] in Hcalls, Hinv, Hw, Hret.
        exists (S j). cbv zeta. rewrite Hcalls, Hinv, Hw. cbn [calls log].
        destruct (Z.ltb_spec attempt maxRetries) as [Hlt|Hge].
        -- assert (1 <= j)%nat by (apply Hj1; lia).
           rewrite !invocations_app, !waits_app. cbn [waits].
           split_all; try lia; try (unfold invocations; cbn [filter List.length]; lia).
           ++ rewrite app_nil_r, <- !app_assoc. cbn [app]. f_equal.
              replace (S j - 1)%nat with (S (j - 1)) by lia. reflexivity.
           ++ intros v Hv. destruct (Hret v Hv) as [_ Hv'].
              split; [lia | now replace (c + S j - 1)%nat with (S c + j - 1)%nat by lia].
        -- assert (k = O) by lia. subst k.
           assert (j = O) by lia. subst j.
           rewrite !invocations_app, !waits_app. cbn [waits backoffs Nat.sub].
           split_all; try lia; try (unfold invocations; cbn [filter List.length]; lia).
           ++ now rewrite !app_nil_r.
           ++ intros v Hv. destruct (Hret v Hv) as [Hv' _]. lia.
Qed.

End RetryMoreFacts.

Example retryRequest_second_attempt_run :
  Api.retryRequest
    (fun k => match k with
              | O => Api.Err (Api.OtherError "timeout")
              | _ => Api.Ok 7
              end) 3 1000 Api.start
  = (Api.Returned 7,
     {| Api.calls := 2; Api.log := [Api.Invoke; Api.Wait 1000; Api.Invoke] |}).
Proof. reflexivity. Qed.

(** X19.  When the first n calls fail with errors that are retried (no
    response, a missing or zero status, a status of 500 or more, or an
    error that is not an Axios error) and call n + 1 succeeds within the
    maximum, retryRequest returns that call's value after exactly n + 1
    calls, having waited delay, 2 delay, 4 delay, ... between them:
    delay * (2^n - 1) in total. *)
Theorem retryRequest_succeeds_after_failures
    {T : Type} (requestFn : nat -> Api.Result T) (maxRetries delay : Z)
    (n : nat) (v : T) :
  Z.of_nat n < maxRetries ->
  (forall k, (k < n)%nat ->
             exists e, requestFn k = Api.Err e /\ Api.isClientError e = false) ->
  requestFn n = Api.Ok v ->
  let r := Api.retryRequest requestFn maxRetries delay Api.start in
  fst r = Api.Returned v
  /\ Api.calls (snd r) = S n
  /\ Api.waits (Api.log (snd r)) = Api.backoffs delay 1 n
  /\ fold_right Z.add 0 (Api.waits (Api.log (snd r))) = delay * (2 ^ Z.of_nat n - 1).
Proof.
  intros Hn Hfail Hok. cbv zeta. unfold Api.retryRequest.
  rewrite (attempts_succeed requestFn maxRetries delay v n); cbn [Api.calls Api.start];
    try assumption; try lia.
  cbn [fst snd Api.calls Api.log Api.start app].
  rewrite waits_app, waits_all_attempts by lia. cbn [Api.waits]. rewrite app_nil_r.
  split_all; [reflexivity | lia | reflexivity |].
  rewrite sum_backoffs by lia. change (2 ^ (1 - 1)) with 1. ring.
Qed.

Lemma retryRequest_succeeds_after_failures_witness :
  let requestFn := fun k => match k with
                            | O => Api.Err (Api.OtherError "timeout")
                            | _ => Api.Ok 7
                            end in
  let r := Api.retryRequest requestFn 3 1000 Api.start in
  fst r = Api.Returned 7
  /\ Api.calls (snd r) = 2%nat
  /\ Api.waits (Api.log (snd r)) = Api.backoffs 1000 1 1
  /\ fold_right Z.add 0 (Api.waits (Api.log (snd r))) = 1000 * (2 ^ Z.of_nat 1 - 1).
Proof.
  apply (retryRequest_succeeds_after_failures
           (fun k => match k with
                     | O => Api.Err (Api.OtherError "timeout")
                     | _ => Api.Ok 7
                     end) 3 1000 1 7).
  - lia.
  - intros k Hk. assert (k = O) by lia. subst k.
    exists (Api.OtherError "timeout"). split; reflexivity.
  - reflexivity.
Defined.

(** X20.  Whatever the request function returns, retryRequest never calls
    it more than maxRetries times; it waits only between calls, the i-th
    wait being delay * 2^(i-1), so the time waited is
    delay * (2^(calls-1) - 1) in total; and it returns a value only if
    that is what the last call returned. *)
Theorem retryRequest_bounded
    {T : Type} (requestFn : nat -> Api.Result T) (maxRetries delay : Z) :
  let r := Api.retryRequest requestFn maxRetries delay Api.start in
  let calls := Api.calls (snd r) in
  Z.of_nat calls <= Z.max 0 maxRetries
  /\ Api.invocations (Api.log (snd r)) = calls
  /\ Api.waits (Api.log (snd r)) = Api.backoffs delay 1 (calls - 1)
  /\ fold_right Z.add 0 (Api.waits (Api.log (snd r)))
     = delay * (2 ^ Z.of_nat (calls - 1) - 1)
  /\ (forall v, fst r = Api.Returned v ->
                (1 <= calls)%nat /\ requestFn (calls - 1)%nat = Api.Ok v).
Proof.
  cbv zeta. unfold Api.retryRequest.
  destruct (Z.le_gt_cases maxRetries 0) as [Hle|Hgt].
  - replace (Z.to_nat maxRetries) with O by lia.
    cbn [Api.attempts Api.ret Api.start fst snd Api.calls Api.log Api.invocations
         Api.waits filter List.length Nat.sub Api.backoffs fold_right].
    change (2 ^ Z.of_nat 0) with 1.
    split_all; try reflexivity; try lia. intros v H. discriminate H.
  - destruct (attempts_bounds requestFn maxRetries delay (Z.to_nat maxRetries) 1 None
                Api.start ltac:(lia)) as (j & Hj & _ & Hc & Hi & Hw & Hret).
    cbn [Api.calls Api.log Api.start Api.invocations Api.waits filter List.length
         Nat.add app] in Hc, Hi, Hw, Hret.
    rewrite Hc, Hw. split; [lia|]. split; [exact Hi|]. split; [reflexivity|].
    split.
    + rewrite sum_backoffs by lia. change (2 ^ (1 - 1)) with 1. ring.
    + exact Hret.
Qed.

Lemma retryRequest_bounded_witness :
  let requestFn := fun _ : nat => Api.Ok 7 in
  let r := Api.retryRequest requestFn 3 1000 Api.start in
  (1 <= Api.calls (snd r))%nat
  /\ requestFn (Api.calls (snd r) - 1)%nat = Api.Ok 7.
Proof.
  exact (proj2 (proj2 (proj2 (proj2
           (retryRequest_bounded (fun _ : nat => Api.Ok 7) 3 1000)))) 7 eq_refl).
Defined.

(* ------------------------------------------------------------------ *)
(** ** Trimming *)

Section TrimFacts.
Import Js Trim.

Lemma trimStart_empty s : trimStart s = EmptyString <-> all_chars is_space s = true.
Proof.
  induction s as [|c r IH]; cbn [trimStart all_chars]; [tauto|].
  destruct (is_space c); cbn [andb]; [exact IH|]. split; discriminate.
Qed.

Lemma trimEnd_empty s : trimEnd s = EmptyString <-> all_chars is_space s = true.
Proof.
  induction s as [|c r IH]; cbn [trimEnd all_chars]; [tauto|].
  destruct (trimEnd r) as [|x t] eqn:E.
  - assert (A : all_chars is_space r = true) by now apply IH.
    rewrite A, andb_true_r. destruct (is_space c); split; congruence.
  - assert (A : all_chars is_space r = false).
    { destruct (all_chars is_space r); [|reflexivity].
      assert (X : String x t = EmptyString) by now apply IH. discriminate X. }
    rewrite A, andb_false_r. split; discriminate.
Qed.

Lemma all_space_trimStart s : all_chars is_space (trimStart s) = all_chars is_space s.
Proof.
  induction s as [|c r IH]; cbn [trimStart all_chars]; [reflexivity|].
  destruct (is_space c) eqn:E; cbn [andb]; [exact IH|].
  cbn [all_chars]. now rewrite E.
Qed.

Lemma trim_empty s : trim s = EmptyString <-> all_chars is_space s = true.
Proof. unfold trim. now rewrite trimEnd_empty, all_space_trimStart. Qed.

Lemma first_char_trimStart s c : first_char (trimStart s) = Some c -> is_space c = false.
Proof.
  induction s as [|x r IH]; cbn [trimStart]; [discriminate|].
  destruct (is_space x) eqn:E; [exact IH|]. cbn [first_char]. congruence.
Qed.

Lemma first_char_trimEnd s c : first_char (trimEnd s) = Some c -> first_char s = Some c.
Proof.
  destruct s as [|x r]; cbn [trimEnd]; [discriminate|].
  destruct (trimEnd r); [destruct (is_space x); [discriminate|]|]; cbn [first_char]; auto.
Qed.

Lemma last_char_trimEnd s c : last_char (trimEnd s) = Some c -> is_space c = false.
Proof.
  induction s as [|x r IH]; cbn [trimEnd]; [discriminate|].
  destruct (trimEnd r) as [|y t] eqn:E.
  - destruct (is_space x) eqn:Ex; [discriminate|]. cbn [last_char]. congruence.
  - cbn [last_char]. exact IH.
Qed.

Lemma trimStart_fixed s :
  (forall c, first_char s = Some c -> is_space c = false) -> trimStart s = s.
Proof.
  destruct s as [|x r]; [reflexivity|]. intros H. cbn [trimStart].
  now rewrite (H x eq_refl).
Qed.

Lemma trimEnd_fixed s :
  (forall c, last_char s = Some c -> is_space c = false) -> trimEnd s = s.
Proof.
  induction s as [|x r IH]; [reflexivity|]. intros H. cbn [trimEnd].
  destruct r as [|y t].
  - cbn [trimEnd]. now rewrite (H x eq_refl).
  - rewrite IH by (intros c Hc; apply H; exact Hc). reflexivity.
Qed.

(** What trimming leaves: no white space at either end, and nothing more
    to trim. *)
Lemma trim_ends s :
  (forall c, first_char (trim s) = Some c -> is_space c = false)
  /\ (forall c, last_char (trim s) = Some c -> is_space c = false)
  /\ trim (trim s) = trim s.
Proof.
  assert (F : forall c, first_char (trim s) = Some c -> is_space c = false).
  { intros c H. unfold trim in H. apply first_char_trimEnd in H.
    now apply first_char_trimStart in H. }
  assert (L : forall c, last_char (trim s) = Some c -> is_space c = false).
  { intros c H. unfold trim in H. now apply last_char_trimEnd in H. }
  split; [exact F|]. split; [exact L|].
  unfold trim at 1. rewrite (trimStart_fixed _ F). now apply trimEnd_fixed.
Qed.

End TrimFacts.

Example provider_name_transform_samples :
  Trim.provider_name_transform (Some "  City Clinic ") = Some "City Clinic"
  /\ Trim.provider_name_transform (Some "   ") = None
  /\ Trim.provider_name_transform (Some "") = None
  /\ Trim.provider_name_transform None = None.
Proof. repeat split. Qed.

(** X21.  The provider name that leaves the schema is either absent or a
    non-empty string without white space at its start or end, on which
    trimming changes nothing; it is absent exactly when the input is
    absent or holds white space only. *)
Theorem provider_name_transform_trimmed (val : option string) :
  (forall t, Trim.provider_name_transform val = Some t ->
             t <> ""
             /\ (forall c, Trim.first_char t = Some c -> Js.is_space c = false)
             /\ (forall c, Trim.last_char t = Some c -> Js.is_space c = false)
             /\ Trim.trim t = t)
  /\ (Trim.provider_name_transform val = None
      <-> val = None \/ exists s, val = Some s /\ Js.all_chars Js.is_space s = true).
Proof.
  destruct val as [s|]; cbn [Trim.provider_name_transform].
  - destruct (Validation.truthy (Trim.trim s)) eqn:Tr.
    + split.
      * intros t E. injection E as <-. destruct (trim_ends s) as (F & L & I).
        split; [now apply truthy_not_empty|]. auto.
      * split; [discriminate|]. intros [H|(s' & E & A)]; [discriminate|].
        injection E as <-. apply trim_empty in A. apply truthy_not_empty in Tr. congruence.
    + split; [discriminate|]. split; [|reflexivity]. intros _. right. exists s.
      split; [reflexivity|]. apply trim_empty.
      unfold Validation.truthy in Tr. apply negb_false_iff in Tr.
      now apply String.eqb_eq in Tr.
  - split; [discriminate|]. split; [now left | reflexivity].
Qed.

Lemma provider_name_transform_trimmed_witness :
  "City Clinic" <> ""
  /\ (forall c, Trim.first_char "City Clinic" = Some c -> Js.is_space c = false)
  /\ (forall c, Trim.last_char "City Clinic" = Some c -> Js.is_space c = false)
  /\ Trim.trim "City Clinic" = "City Clinic".
Proof.
  apply (proj1 (provider_name_transform_trimmed (Some "  City Clinic "))).
  reflexivity.
Defined.

Example isEmpty_samples :
  Trim.isEmpty (Trim.VStr "   ") = true
  /\ Trim.isEmpty (Trim.VStr " a ") = false
  /\ Trim.isEmpty (Trim.VNum 0) = false
  /\ Trim.isEmpty (Trim.VBool false) = false
  /\ Trim.isEmpty (Trim.VArray 0) = true
  /\ Trim.isEmpty (Trim.VObject ["id"]) = false.
Proof. repeat split. Qed.

(** X22.  isEmpty holds of null and undefined, of a string exactly when
    it consists of white space only, of an array without elements and of
    an object without keys; a number or a boolean is never empty, not even
    0 or false. *)
Theorem isEmpty_characterised (v : Trim.value) :
  Trim.isEmpty v = true
  <-> v = Trim.VNull \/ v = Trim.VUndefined
      \/ (exists s, v = Trim.VStr s /\ Js.all_chars Js.is_space s = true)
      \/ v = Trim.VArray 0 \/ v = Trim.VObject [].
Proof.
  destruct v as [| | b | x | s | n | keys]; cbn [Trim.isEmpty].
  - split; [auto | reflexivity].
  - split; [auto | reflexivity].
  - split; [discriminate|].
    intros [H|[H|[(s & H & _)|[H|H]]]]; discriminate H.
  - split; [discriminate|].
    intros [H|[H|[(s & H & _)|[H|H]]]]; discriminate H.
  - rewrite String.eqb_eq, trim_empty. split.
    + intros A. right. right. left. now exists s.
    + intros [H|[H|[(s' & H & A)|[H|H]]]]; try discriminate H. now injection H as <-.
  - rewrite Nat.eqb_eq. split.
    + intros ->. auto.
    + intros [H|[H|[(s & H & _)|[H|H]]]]; try discriminate H. now injection H.
  - split.
    + destruct keys; [auto | discriminate].
    + intros [H|[H|[(s & H & _)|[H|H]]]]; try discriminate H.
      injection H as ->. reflexivity.
Qed.

(* ------------------------------------------------------------------ *)
(** ** Filters and update payloads *)

(** X23.  When claimFiltersSchema accepts filters in which date_from and
    date_to are both given and not empty, both dates parse and date_from
    is not later than date_to. *)
Theorem claimFiltersSchema_date_range
    (parseDate : string -> option Z) (d : Validation.ClaimFiltersData)
    (date_from date_to : string) :
  Validation.claimFiltersSchema parseDate d = true ->
  Validation.fl_date_from d = Some date_from -> date_from <> "" ->
  Validation.fl_date_to d = Some date_to -> date_to <> "" ->
  exists a b, parseDate date_from = Some a /\ parseDate date_to = Some b /\ a <= b.
Proof.
  intros Hacc Hf Nf Ht Nt. unfold Validation.claimFiltersSchema in Hacc.
  rewrite !andb_true_iff in Hacc. destruct Hacc as [_ Hr].
  unfold Validation.date_range_ok in Hr. rewrite Hf, Ht in Hr.
  apply truthy_not_empty in Nf. apply truthy_not_empty in Nt. rewrite Nf, Nt in Hr.
  cbn [andb] in Hr.
  destruct (parseDate date_from) as [a|]; [|discriminate].
  destruct (parseDate date_to) as [b|]; [|discriminate].
  exists a, b. repeat split. now apply Z.leb_le.
Qed.

Lemma claimFiltersSchema_date_range_witness :
  exists a b,
    Sample.parseDate "2024-01-15" = Some a /\ Sample.parseDate "2024-03-01" = Some b
    /\ a <= b.
Proof.
  apply (claimFiltersSchema_date_range Sample.parseDate Sample.no_filters
           "2024-01-15" "2024-03-01");
    [reflexivity | reflexivity | discriminate | reflexivity | discriminate].
Defined.


Lemma isEmpty_characterised_witness :
  Trim.isEmpty (Trim.VStr "   ") = true.
Proof.
  apply (proj2 (isEmpty_characterised (Trim.VStr "   "))).
  right. right. left. exists "   ". split; reflexivity.
Defined.
